(** * Transit-Study: the merge-and-render pipeline of [MappingApp.py]

    A shallow embedding of the script [src/MappingApp.py] and the
    properties of its specification.

    Modelling conventions.
    - A pandas [DataFrame] is the list of its rows, in index order; a row is
      a record of the columns the script reads.
    - A [float64] value is an exact rational, or one of the IEEE special
      values [+inf], [-inf], [NaN].  Signed zeros are not distinguished.
      The one inexact operation of the script, the division [/], rounds
      its exact quotient with a rounding function [rnd] that the theorems
      take as a parameter (monotone, [rnd 0 == 0]); overflow of a finite
      quotient is not modelled.
    - A Python exception is a value of [exn]; code that can raise returns
      a [result].
    - What the script delegates to libraries is a parameter: the projected
      area of a geometry ([to_crs(epsg=3857).area]), [pd.to_numeric], and
      the validation folium applies to the coordinates of a [PolyLine] and
      of a [CircleMarker].  folium's other constructors build the layer
      description they are given.
    - A column read from a file has the dtype pandas infers for it: a cell
      is text, an [int64], a whole [float64] or a missing value, and an
      identifier of a GTFS table is an [int64] or text.  [str] of a cell
      depends on that type (["22"], ["22.0"], ["nan"]); [pd.merge] raises
      on an [int64] key column against a text one, and a left merge that
      leaves a trip without route turns an [int64] name column into
      [float64].
    - [sort_values] is modelled by a stable sort; pandas leaves the order
      of rows with equal keys undetermined, and the properties of the
      route lines are stated up to that order. *)

From Stdlib Require Import ZArith QArith Qround String Ascii List Lia Lqa.
From Stdlib Require Import DecimalString DecimalZ DecimalFacts Sorted.
From stdpp Require Import gmap strings list.

Set Warnings "-clear-no-such-hyp".

Local Open Scope string_scope.
Local Open Scope list_scope.
Local Open Scope Z_scope.

(** ** Exceptions and results *)

Inductive exn : Type :=
| TypeError (msg : string)
| ValueError (msg : string)
| OverflowError (msg : string)
| FileNotFoundError (msg : string).

(** [str(e)] *)
Definition exn_str (e : exn) : string :=
  match e with
  | TypeError msg | ValueError msg | OverflowError msg
  | FileNotFoundError msg => msg
  end.

Inductive result (A : Type) : Type :=
| Ok (a : A)
| Raise (e : exn).
Arguments Ok {A} a.
Arguments Raise {A} e.

(** Sequencing: a raised exception skips the rest.  With these instances
    [x ← r; k] is stdpp's notation for [mbind (fun x => k) r]. *)
#[global] Instance result_bind : MBind result :=
  fun A B (k : A -> result B) (r : result A) =>
    match r with
    | Ok a => k a
    | Raise e => Raise e
    end.

#[global] Instance result_ret : MRet result := fun A a => Ok a.

(** ** float64 *)

Inductive float64 : Type :=
| Fin (q : Q)
| PInf
| NInf
| NaN.

(** [Series.notna()] on one cell *)
Definition notna (x : float64) : bool :=
  match x with NaN => false | _ => true end.

(** [x > 0] on one cell; a comparison with [NaN] is [False] *)
Definition gt0 (x : float64) : bool :=
  match x with
  | Fin q => negb (Qle_bool q 0)
  | PInf => true
  | NInf | NaN => false
  end.

(** [x <= y]; a comparison with [NaN] is [False] *)
Definition fle (x y : float64) : bool :=
  match x, y with
  | NaN, _ | _, NaN => false
  | NInf, _ => true
  | _, PInf => true
  | Fin a, Fin b => Qle_bool a b
  | _, _ => false
  end.

Section Division.
(** rounding of an exact quotient to a representable value *)
Variable rnd : Q -> Q.

(** [x / y] on two cells of a float column: IEEE 754 division, which
    never raises *)
Definition fdiv (x y : float64) : float64 :=
  match x, y with
  | NaN, _ | _, NaN => NaN
  | Fin a, Fin b =>
      if Qeq_bool b 0
      then (if Qeq_bool a 0 then NaN
            else if Qle_bool a 0 then NInf else PInf)
      else Fin (rnd (a / b))
  | Fin _, (PInf | NInf) => Fin 0
  | PInf, Fin b => if Qle_bool 0 b then PInf else NInf
  | NInf, Fin b => if Qle_bool 0 b then NInf else PInf
  | (PInf | NInf), (PInf | NInf) => NaN
  end.
End Division.

(** [Series.clip(upper=u)] on one cell: [NaN] stays [NaN] *)
Definition clip_upper (u : Q) (x : float64) : float64 :=
  match x with
  | Fin q => if Qle_bool q u then Fin q else Fin u
  | PInf => Fin u
  | NInf => NInf
  | NaN => NaN
  end.

(** [Series.max()]: the largest value that is not [NaN]; [NaN] when there
    is none *)
Definition fmax2 (x y : float64) : float64 :=
  match x, y with
  | NaN, _ => y
  | _, NaN => x
  | _, _ => if fle x y then y else x
  end.

Definition series_max (l : list float64) : float64 :=
  fold_left fmax2 l NaN.

(** [x // d] for a float [x] and a positive integer [d] *)
Definition floordiv (x : float64) (d : Z) : float64 :=
  match x with
  | Fin q => Fin (inject_Z (Qfloor (q / inject_Z d)))
  | _ => NaN
  end.

(** [x + k] for a float [x] and an integer [k] *)
Definition fadd_int (x : float64) (k : Z) : float64 :=
  match x with
  | Fin q => Fin (q + inject_Z k)
  | other => other
  end.

(** [int(x)]: truncation toward zero *)
Definition py_int (x : float64) : result Z :=
  match x with
  | Fin q => Ok (if Qle_bool 0 q then Qfloor q else Qceiling q)
  | NaN => Raise (ValueError "cannot convert float NaN to integer")
  | PInf | NInf =>
      Raise (OverflowError "cannot convert float infinity to integer")
  end.

(** [list(range(start, stop, step))] *)
Definition py_range (start stop step : Z) : result (list Z) :=
  if step =? 0 then Raise (ValueError "range() arg 3 must not be zero")
  else
    let n := if 0 <? step
             then Z.max 0 ((stop - start + step - 1) / step)
             else Z.max 0 ((start - stop - step - 1) / (- step)) in
    Ok (map (fun i : nat => start + Z.of_nat i * step) (seq 0 (Z.to_nat n))).

(** [str(z)] for a Python [int] *)
Definition py_str_int (z : Z) : string :=
  NilZero.string_of_int (Z.to_int z).

(** ** Identifier Normalizer *)

(** One data row of the Census API response (header row dropped), with
    the column names line 94 gives them. *)
Record CensusRow : Type := {
  NAME : string;
  population_raw : option string;
  state : string;
  county : string;
  tract : string;
  block_group : string
}.

(** One row of [population_df], restricted to the columns used later. *)
Record PopRow : Type := {
  pop_GEOID : string;
  pop_population : float64
}.

(** [df["GEOID"] = df["state"] + df["county"] + df["tract"] + df["block_group"]] *)
Definition tabular_GEOID (r : CensusRow) : string :=
  ((state r +:+ county r) +:+ tract r) +:+ block_group r.

(** A cell of a column as pandas holds it after reading a file: text (a
    cell of an [object] column), an integer (a cell of an [int64] column),
    a float that is a whole number (a cell of a [float64] column, which is
    what a numeric column with a missing value becomes; magnitudes below
    10^16, where [repr] uses no exponent), or a missing value ([NaN]). *)
Inductive cell : Type :=
| CStr (s : string)
| CInt (z : Z)
| CFloat (z : Z)
| CNaN.

(** [str(value)] of one cell: what [shapes_gdf["GEOID"].astype(str)] and
    an f-string give *)
Definition astype_str (c : cell) : string :=
  match c with
  | CStr s => s
  | CInt z => py_str_int z
  | CFloat z => py_str_int z +:+ ".0"
  | CNaN => "nan"
  end.

Section Fetch.
(** [pd.to_numeric(_, errors="coerce")] on one cell *)
Variable to_numeric : option string -> float64.

(** lines 94-96 on the rows of one response *)
Definition county_frame (rows : list CensusRow) : list PopRow :=
  map (fun r => {| pop_GEOID := tabular_GEOID r;
                   pop_population := to_numeric (population_raw r) |}) rows.

(** [fetch_population_data], on the outcome of the 24 requests: a
    response's rows, or the text of the exception the request raised.
    Returns the frame and the warnings shown. *)
Fixpoint fetch_loop (responses : list (string * (list CensusRow + string)))
  : list (list PopRow) * list string :=
  match responses with
  | [] => ([], [])
  | (cty, inl rows) :: rest =>
      let '(all_data, warns) := fetch_loop rest in
      (county_frame rows :: all_data, warns)
  | (cty, inr e) :: rest =>
      let '(all_data, warns) := fetch_loop rest in
      (all_data,
       ("Failed to fetch data for county " +:+ cty +:+ ": " +:+ e) :: warns)
  end.

Definition fetch_population_data
    (responses : list (string * (list CensusRow + string)))
  : option (list PopRow) * list string :=
  let '(all_data, warns) := fetch_loop responses in
  match all_data with
  | [] => (None, warns)
  | _ => (Some (concat all_data), warns)
  end.
End Fetch.

(** ** Population Density Calculator *)

(** A geometry in geographic coordinates: the rings of its polygons. *)
Definition Geometry : Type := list (list (float64 * float64)).

(** One row of [shapes_gdf]. *)
Record ShapeRow : Type := {
  shp_GEOID : cell;
  shp_geometry : Geometry
}.

(** One row of [merged] after the join of line 129. *)
Record JoinedRow : Type := {
  j_GEOID : string;
  j_geometry : Geometry;
  j_population : float64
}.

(** One row of [merged] after line 133. *)
Record GeoUnit : Type := {
  GEOID : string;
  geometry : Geometry;
  population : float64;
  area_km2 : float64;
  pop_density : float64
}.

(** line 129 for one row of [shapes_gdf], whose key is already a string:
    one output row per row of [population_df] with the same key, in the
    order of [population_df]; a single row with an absent population when
    there is none ([how="left"]) *)
Definition join_row (population_df : list PopRow) (key : string) (g : Geometry)
  : list JoinedRow :=
  match List.filter (fun p => String.eqb key (pop_GEOID p)) population_df with
  | [] => [ {| j_GEOID := key; j_geometry := g; j_population := NaN |} ]
  | matches =>
      map (fun p => {| j_GEOID := key; j_geometry := g;
                       j_population := pop_population p |}) matches
  end.

(** lines 128-129 *)
Definition merge_left (shapes_gdf : list ShapeRow) (population_df : list PopRow)
  : list JoinedRow :=
  flat_map (fun s => join_row population_df (astype_str (shp_GEOID s))
                              (shp_geometry s)) shapes_gdf.

(** line 130: the mask [notna() & (population > 0)] *)
Definition has_population (r : JoinedRow) : bool :=
  notna (j_population r) && gt0 (j_population r).

Section DensityCalculator.
Variable rnd : Q -> Q.
(** [geometry.to_crs(epsg=3857).area] of one geometry, in square metres *)
Variable area_3857 : Geometry -> float64.

(** lines 131-133 for one row *)
Definition with_density (r : JoinedRow) : GeoUnit :=
  let a := fdiv rnd (area_3857 (j_geometry r)) (Fin 1000000) in
  {| GEOID := j_GEOID r;
     geometry := j_geometry r;
     population := j_population r;
     area_km2 := a;
     pop_density := clip_upper 14000 (fdiv rnd (j_population r) a) |}.

(** lines 127-135: the value of [merged] *)
Definition merged (population_df : option (list PopRow))
                  (shapes_gdf : option (list ShapeRow))
  : option (list GeoUnit) :=
  match population_df, shapes_gdf with
  | Some pop, Some shp =>
      Some (map with_density (List.filter has_population (merge_left shp pop)))
  | _, _ => None
  end.
End DensityCalculator.

(** ** Choropleth Classifier *)

(** line 140 on the value of [merged["pop_density"].max()] *)
Definition round_max (mx : float64) : result Z :=
  n ← py_int (fadd_int (floordiv mx 1000) 1);
  Ok (n * 1000).

(** line 140: subscripting [None] raises *)
Definition max_pop_density (merged : option (list GeoUnit)) : result Z :=
  match merged with
  | None => Raise (TypeError "'NoneType' object is not subscriptable")
  | Some rows => round_max (series_max (map pop_density rows))
  end.

(** line 141 *)
Definition bins (max_pop_density : Z) : result (list Z) :=
  py_range 0 (max_pop_density + 1000) (max_pop_density / 10).

(** lines 140-141 on the maximum density *)
Definition classify (mx : float64) : result (Z * list Z) :=
  M ← round_max mx;
  b ← bins M;
  Ok (M, b).

(** ** The map and its layers *)

Definition LatLon : Type := (float64 * float64)%type.

Inductive Feature : Type :=
| PolyLine (locations : list LatLon) (color : string) (weight : Z)
           (opacity : Q) (tooltip : string)
| CircleMarker (location : LatLon) (radius : Z) (color : string)
               (fill : bool) (fill_opacity : Q) (popup : string).

Inductive Layer : Type :=
| Choropleth (geo_data : list GeoUnit) (name : string)
             (threshold_scale : list Z) (legend_name : string)
| FeatureGroup (name : string) (show : bool) (children : list Feature)
| LayerControl (collapsed : bool).

(** The children of the [folium.Map] [m], in the order they were added. *)
Definition Map : Type := list Layer.

Definition add_to (l : Layer) (m : Map) : Map := m ++ [l].

Definition is_PolyLine (f : Feature) : bool :=
  match f with PolyLine _ _ _ _ _ => true | _ => false end.

Definition is_CircleMarker (f : Feature) : bool :=
  match f with CircleMarker _ _ _ _ _ _ => true | _ => false end.

Definition layer_name (l : Layer) : option string :=
  match l with
  | Choropleth _ name _ _ => Some name
  | FeatureGroup name _ _ => Some name
  | LayerControl _ => None
  end.

(** ** Transit Layer Builder *)

Inductive Mode : Type :=
| LocalBus | LightRail | MetroSubway | MARCTrain | CommuterBus.

Record Feed : Type := {
  url : string;
  folder : string;
  color : string
}.

(** the keys of [GTFS_FEEDS] *)
Definition mode_label (mode : Mode) : string :=
  match mode with
  | LocalBus => "Local Bus"
  | LightRail => "Light Rail"
  | MetroSubway => "Metro Subway"
  | MARCTrain => "MARC Train"
  | CommuterBus => "Commuter Bus"
  end.

Definition GTFS_FEEDS (mode : Mode) : Feed :=
  match mode with
  | LocalBus =>
      {| url := "https://feeds.mta.maryland.gov/gtfs/local-bus";
         folder := "bus"; color := "blue" |}
  | LightRail =>
      {| url := "https://feeds.mta.maryland.gov/gtfs/light-rail";
         folder := "light_rail"; color := "purple" |}
  | MetroSubway =>
      {| url := "https://feeds.mta.maryland.gov/gtfs/metro";
         folder := "metro"; color := "red" |}
  | MARCTrain =>
      {| url := "https://feeds.mta.maryland.gov/gtfs/marc";
         folder := "marc_train"; color := "green" |}
  | CommuterBus =>
      {| url := "https://feeds.mta.maryland.gov/gtfs/commuter-bus";
         folder := "commuter_bus"; color := "orange" |}
  end.

(** An identifier of a GTFS table as [pd.read_csv] returns it: an integer
    in a column of dtype [int64], text in a column of dtype [object].
    Identifiers are taken to be present in every row. *)
Inductive Key : Type :=
| KInt (z : Z)
| KStr (s : string).

#[global] Instance Key_eq_dec : EqDecision Key.
Proof. solve_decision. Defined.

#[global] Instance Key_countable : Countable Key.
Proof.
  refine (inj_countable'
            (fun k => match k with KInt z => inl z | KStr s => inr s end)
            (fun x => match x with inl z => KInt z | inr s => KStr s end) _).
  intros []; reflexivity.
Defined.

(** The four tables of a feed, with the columns the script selects. *)
Module Shapes.
Record row : Type := {
  shape_id : Key;
  shape_pt_lat : float64;
  shape_pt_lon : float64;
  shape_pt_sequence : Z
}.
End Shapes.

Module Trips.
Record row : Type := {
  route_id : Key;
  shape_id : Key
}.
End Trips.

Module Routes.
Record row : Type := {
  route_id : Key;
  route_short_name : cell
}.
End Routes.

Module Stops.
Record row : Type := {
  stop_lat : float64;
  stop_lon : float64;
  stop_name : string
}.
End Stops.

(** One row of [trip_routes]. *)
Module TripRoutes.
Record row : Type := {
  route_id : Key;
  shape_id : Key;
  route_short_name : cell
}.
End TripRoutes.

(** What [pd.read_csv] gives for each file of a feed's folder: the table,
    or the exception raised because the file is missing or unreadable (or
    lacks a column the script selects). *)
Record GtfsFolder : Type := {
  shapes_txt : result (list Shapes.row);
  trips_txt : result (list Trips.row);
  routes_txt : result (list Routes.row);
  stops_txt : result (list Stops.row)
}.

Definition FileSystem : Type := string -> GtfsFolder.

Definition is_KInt (k : Key) : bool :=
  match k with KInt _ => true | KStr _ => false end.

Definition is_KStr (k : Key) : bool :=
  match k with KStr _ => true | KInt _ => false end.

Definition is_CInt (c : cell) : bool :=
  match c with CInt _ => true | _ => false end.

(** The check [pd.merge] makes on the two key columns before joining:
    joining an [int64] column with a column of text raises, unless one of
    the two columns is empty.  The message is that of pandas 2. *)
Definition check_merge_keys (left right : list Key) : option exn :=
  match left, right with
  | [], _ | _, [] => None
  | _, _ =>
      if forallb is_KInt left && forallb is_KStr right
      then Some (ValueError
        "You are trying to merge on int64 and object columns for key 'route_id'. If you wish to proceed you should use pd.concat")
      else if forallb is_KStr left && forallb is_KInt right
      then Some (ValueError
        "You are trying to merge on object and int64 columns for key 'route_id'. If you wish to proceed you should use pd.concat")
      else None
  end.

(** lines 175-179 for one trip: one row per route with the trip's
    [route_id], in the order of [routes]; a single row with a missing name
    when there is none ([how='left']) *)
Definition trip_with_routes (routes : list Routes.row) (t : Trips.row)
  : list TripRoutes.row :=
  match List.filter
          (fun r => bool_decide (Trips.route_id t = Routes.route_id r))
          routes with
  | [] => [ {| TripRoutes.route_id := Trips.route_id t;
               TripRoutes.shape_id := Trips.shape_id t;
               TripRoutes.route_short_name := CNaN |} ]
  | matches =>
      map (fun r => {| TripRoutes.route_id := Trips.route_id t;
                       TripRoutes.shape_id := Trips.shape_id t;
                       TripRoutes.route_short_name := Routes.route_short_name r |})
          matches
  end.

(** no route has the trip's [route_id] *)
Definition unmatched (routes : list Routes.row) (t : Trips.row) : bool :=
  forallb (fun r => negb (bool_decide (Trips.route_id t = Routes.route_id r)))
          routes.

(** the cast of one cell when an [int64] column becomes [float64] *)
Definition to_float64 (c : cell) : cell :=
  match c with
  | CInt z => CFloat z
  | other => other
  end.

(** The column [route_short_name] of the join has the dtype of the column
    of [routes], except that an [int64] column becomes [float64] as soon
    as one trip has no route, since [int64] cannot hold the missing
    value. *)
Definition names_upcast (trips : list Trips.row) (routes : list Routes.row)
  : bool :=
  existsb (unmatched routes) trips
  && forallb (fun r => is_CInt (Routes.route_short_name r)) routes.

Definition upcast_name (r : TripRoutes.row) : TripRoutes.row :=
  {| TripRoutes.route_id := TripRoutes.route_id r;
     TripRoutes.shape_id := TripRoutes.shape_id r;
     TripRoutes.route_short_name := to_float64 (TripRoutes.route_short_name r) |}.

(** lines 175-179: [pd.merge(trips, routes, on='route_id', how='left')] *)
Definition merge_trip_routes (trips : list Trips.row) (routes : list Routes.row)
  : result (list TripRoutes.row) :=
  match check_merge_keys (map Trips.route_id trips)
                         (map Routes.route_id routes) with
  | Some e => Raise e
  | None =>
      let rows := flat_map (trip_with_routes routes) trips in
      Ok (if names_upcast trips routes then map upcast_name rows else rows)
  end.

(** [.sort_values('shape_pt_sequence')], ascending.  pandas' default sort
    is not stable: the order it gives to rows with the same sequence number
    is not determined; the model keeps them in the order of the file, and
    the properties below state the order of the points up to such ties. *)
Fixpoint insert_by_sequence (p : Shapes.row) (l : list Shapes.row)
  : list Shapes.row :=
  match l with
  | [] => [p]
  | q :: l' =>
      if Shapes.shape_pt_sequence p <=? Shapes.shape_pt_sequence q
      then p :: q :: l'
      else q :: insert_by_sequence p l'
  end.

Definition sort_values (l : list Shapes.row) : list Shapes.row :=
  foldr insert_by_sequence [] l.

(** lines 191-192.  Comparing an integer with text is [False]. *)
Definition shape_coords (shapes : list Shapes.row) (shape_id : Key)
  : list LatLon :=
  map (fun p => (Shapes.shape_pt_lat p, Shapes.shape_pt_lon p))
      (sort_values
         (List.filter (fun p => bool_decide (Shapes.shape_id p = shape_id))
                      shapes)).

(** the text an f-string gives for a cell: [str(value)], so ["22"] for the
    integer 22, ["22.0"] for the float 22.0 and ["nan"] for a missing
    value *)
Definition format_cell (c : cell) : string := astype_str c.

Section TransitLayerBuilder.
(** folium's check of the [locations] of a [PolyLine] and of the
    [location] of a [CircleMarker]: the exception raised, if any *)
Variable validate_locations : list LatLon -> option exn.
Variable validate_location : LatLon -> option exn.

Variable fs : FileSystem.
Variable show_stops : bool.

(** lines 194-200: the constructor call *)
Definition new_PolyLine (locations : list LatLon) (color : string)
    (weight : Z) (opacity : Q) (tooltip : string) : result Feature :=
  match validate_locations locations with
  | Some e => Raise e
  | None => Ok (PolyLine locations color weight opacity tooltip)
  end.

(** lines 204-211: the constructor call *)
Definition new_CircleMarker (location : LatLon) (radius : Z) (color : string)
    (fill : bool) (fill_opacity : Q) (popup : string) : result Feature :=
  match validate_location location with
  | Some e => Raise e
  | None => Ok (CircleMarker location radius color fill fill_opacity popup)
  end.

(** lines 185-200: the loop over [trip_routes.iterrows()], from the set
    [plotted_shapes] and the children of [route_group] so far *)
Fixpoint route_loop (shapes : list Shapes.row) (color label : string)
    (rows : list TripRoutes.row) (plotted_shapes : gset Key)
    (route_group : list Feature) : result (list Feature) :=
  match rows with
  | [] => Ok route_group
  | row :: rest =>
      let shape_id := TripRoutes.shape_id row in
      if decide (shape_id ∈ plotted_shapes)
      then route_loop shapes color label rest plotted_shapes route_group
      else
        let plotted_shapes := plotted_shapes ∪ {[ shape_id ]} in
        let coords := shape_coords shapes shape_id in
        line ← new_PolyLine coords color 2 (7 # 10)
                 (label +:+ " Route "
                    +:+ format_cell (TripRoutes.route_short_name row));
        route_loop shapes color label rest plotted_shapes
                   (route_group ++ [line])
  end.

(** lines 203-211: the loop over [stops.iterrows()] *)
Fixpoint stop_loop (color label : string) (stops : list Stops.row)
    (stop_group : list Feature) : result (list Feature) :=
  match stops with
  | [] => Ok stop_group
  | stop :: rest =>
      marker ← new_CircleMarker (Stops.stop_lat stop, Stops.stop_lon stop)
                 2 color true (6 # 10)
                 (label +:+ " Stop: " +:+ Stops.stop_name stop);
      stop_loop color label rest (stop_group ++ [marker])
  end.

(** lines 170-215: the body of the [try].  The map [m] is only touched
    by the two [add_to] calls that end the body, after everything that
    can raise: an exception leaves [m] as it was. *)
Definition plot_gtfs_body (folder color label : string) (m : Map)
  : result Map :=
  shapes ← shapes_txt (fs folder);
  trips ← trips_txt (fs folder);
  routes ← routes_txt (fs folder);
  stops ← stops_txt (fs folder);
  trip_routes ← merge_trip_routes trips routes;
  route_group ← route_loop shapes color label trip_routes ∅ [];
  stop_group ← (if show_stops then stop_loop color label stops []
                else Ok []);
  let m := add_to (FeatureGroup (label +:+ " Routes") true route_group) m in
  let m := if show_stops
           then add_to (FeatureGroup (label +:+ " Stops") show_stops
                                     stop_group) m
           else m in
  Ok m.

(** lines 168-218: [plot_gtfs], on the map and the errors shown so far *)
Definition plot_gtfs (folder color label : string)
    (st : Map * list string) : Map * list string :=
  let '(m, errors) := st in
  match plot_gtfs_body folder color label m with
  | Ok m' => (m', errors)
  | Raise e =>
      (m, errors ++ ["Failed to load " +:+ label +:+ " data: " +:+ exn_str e])
  end.

(** lines 221-223 *)
Definition plot_modes (selected_modes : list Mode) (st : Map * list string)
  : Map * list string :=
  foldl (fun st mode =>
           let cfg := GTFS_FEEDS mode in
           plot_gtfs (folder cfg) (color cfg) (mode_label mode) st)
        st selected_modes.
End TransitLayerBuilder.

(** ** The script *)

Section Script.
Variable rnd : Q -> Q.
Variable area_3857 : Geometry -> float64.
Variable validate_locations : list LatLon -> option exn.
Variable validate_location : LatLon -> option exn.

(** lines 127-226, from the two loaded datasets, the feed folders and the
    sidebar inputs: the map rendered and the errors shown, or the
    exception that ends the script *)
Definition script (population_df : option (list PopRow))
    (shapes_gdf : option (list ShapeRow)) (fs : FileSystem)
    (selected_modes : list Mode) (show_stops show_population : bool)
  : result (Map * list string) :=
  let merged := merged rnd area_3857 population_df shapes_gdf in
  let m : Map := [] in
  max_pop_density ← max_pop_density merged;
  bins ← bins max_pop_density;
  (* lines 142-143 build a colormap that nothing uses *)
  let m := match merged with
           | Some rows =>
               if show_population
               then add_to (Choropleth rows "Population Density" bins
                              "Population Density (people/km²)") m
               else m
           | None => m
           end in
  let '(m, errors) :=
    plot_modes validate_locations validate_location fs show_stops
               selected_modes (m, []) in
  Ok (add_to (LayerControl false) m, errors).
End Script.

(** ** Download of the feeds *)

(** What the request for a feed's url yields: the tables of the archive,
    or the exception raised by [requests.get], [raise_for_status] or
    [zipfile.ZipFile] (lines 53-55). *)
Definition Network : Type := string -> result GtfsFolder.

(** what [st.write], [st.success] and [st.error] show *)
Inductive Message : Type :=
| Written (text : string)
| Succeeded (text : string)
| Failed (text : string).

(** lines 50-62: [download_gtfs], on the folders on disk and the messages
    shown so far.  The archive is opened before the folder is touched;
    [rmtree], [makedirs] and [extractall] are taken to succeed, and leave
    in the folder the files of the archive only. *)
Definition download_gtfs (net : Network) (label url folder : string)
    (st : FileSystem * list Message) : FileSystem * list Message :=
  let '(fs, shown) := st in
  let shown := shown ++ [Written ("📅 Downloading " +:+ label +:+ " GTFS data...")] in
  match net url with
  | Ok z =>
      (fun f => if String.eqb f folder then z else fs f,
       shown ++ [Succeeded (label +:+ " GTFS data downloaded and extracted.")])
  | Raise e =>
      (fs,
       shown ++ [Failed ("Failed to download " +:+ label +:+ " GTFS: "
                           +:+ exn_str e)])
  end.

(** [GTFS_FEEDS.items()], in the order of the dictionary *)
Definition all_modes : list Mode :=
  [LocalBus; LightRail; MetroSubway; MARCTrain; CommuterBus].

(** lines 67-69: the refresh button *)
Definition refresh_all (net : Network) (st : FileSystem * list Message)
  : FileSystem * list Message :=
  foldl (fun st mode =>
           let cfg := GTFS_FEEDS mode in
           download_gtfs net (mode_label mode) (url cfg) (folder cfg) st)
        st all_modes.

(** ** Vocabulary of the properties *)

(** *** Identifiers *)

Definition is_digit (c : ascii) : bool :=
  ((48 <=? nat_of_ascii c) && (nat_of_ascii c <=? 57))%nat.

Fixpoint all_digits (s : string) : bool :=
  match s with
  | EmptyString => true
  | String c s' => is_digit c && all_digits s'
  end.

(** a code of [width] decimal digits *)
Definition fixed_width (width : nat) (s : string) : bool :=
  (String.length s =? width)%nat && all_digits s.

(** The four codes of a tabular record are zero-padded numeric strings of
    widths 2, 3, 6 and 1. *)
Definition well_formed (r : CensusRow) : bool :=
  fixed_width 2 (state r) && fixed_width 3 (county r)
  && fixed_width 6 (tract r) && fixed_width 1 (block_group r).

(** the number a decimal numeral denotes *)
Definition numeral_value (s : string) : option Z :=
  option_map Z.of_int (NilZero.int_of_string s).

(** the number a polygon key stands for: the value of its digits when it
    is stored as text, the number itself when it is stored as a number *)
Definition key_number (c : cell) : option Z :=
  match c with
  | CStr s => if all_digits s then numeral_value s else None
  | CInt z => Some z
  | CFloat z => Some z
  | CNaN => None
  end.

(** The polygon key [c] and the tabular record [r] name the same
    geography: the twelve-digit code read off the fields of [r] and the
    key [c] stand for the same number. *)
Definition same_geography (r : CensusRow) (c : cell) : Prop :=
  exists n : Z,
    numeral_value (state r +:+ county r +:+ tract r +:+ block_group r)
    = Some n
    /\ key_number c = Some n.

Definition stored_as_text (c : cell) : bool :=
  match c with CStr _ => true | _ => false end.

Definition stored_as_int (c : cell) : bool :=
  match c with CInt _ => true | _ => false end.

Definition stored_as_float (c : cell) : bool :=
  match c with CFloat _ => true | _ => false end.

Definition leading_zero (s : string) : bool :=
  match s with
  | String c _ => Ascii.eqb c "0"
  | EmptyString => false
  end.

(** *** Density *)

Definition is_zero (x : float64) : bool :=
  match x with Fin q => Qeq_bool q 0 | _ => false end.

(** a real number that is not negative *)
Definition nonneg_real (x : float64) : bool :=
  match x with Fin q => Qle_bool 0 q | _ => false end.

(** *** Bins *)

(** rounding up to the nearest thousand *)
Definition round_up_to_thousand (q : Q) : Z := Qceiling (q / 1000) * 1000.

(** the eleven edges of the ten equal-width bins of [[0, M]] *)
Definition ten_bins (M : Z) : list Z :=
  map (fun i : nat => Z.of_nat i * (M / 10)) (seq 0 11).

(** The classifier as the specification words it: on the maximum [q] it
    rounds up to the nearest thousand and yields exactly ten equal-width
    bins of the interval up to the rounded maximum. *)
Definition rounds_up_into_ten_bins (q : Q) : Prop :=
  classify (Fin q)
  = Ok (round_up_to_thousand q, ten_bins (round_up_to_thousand q)).

(** *** Transit layers *)

(** the path ids the trips of a mode refer to *)
Definition referenced_paths (trips : list Trips.row) : gset Key :=
  list_to_set (map Trips.shape_id trips).

(** The rows of [trip_routes] at which the loop of lines 185-200 does not
    [continue], given the ids already in [plotted_shapes]: the first row of
    each path id. *)
Fixpoint first_rows (rows : list TripRoutes.row) (plotted_shapes : gset Key)
  : list TripRoutes.row :=
  match rows with
  | [] => []
  | row :: rest =>
      if decide (TripRoutes.shape_id row ∈ plotted_shapes)
      then first_rows rest plotted_shapes
      else row :: first_rows rest (plotted_shapes ∪ {[ TripRoutes.shape_id row ]})
  end.

(** the path ids in the order the loop plots them *)
Definition plotted_order (trip_routes : list TripRoutes.row) : list Key :=
  map TripRoutes.shape_id (first_rows trip_routes ∅).

(** the path has at least one point in [shapes.txt] *)
Definition has_points (shapes : list Shapes.row) (shape_id : Key) : bool :=
  existsb (fun p => bool_decide (Shapes.shape_id p = shape_id)) shapes.

(** the referenced paths that have points *)
Definition paths_with_points (shapes : list Shapes.row)
    (trips : list Trips.row) : gset Key :=
  filter (fun k => has_points shapes k = true) (referenced_paths trips).

(** [locations] runs through the points of the path, each once, in
    ascending order of their sequence numbers *)
Definition drawn_through (shapes : list Shapes.row) (shape_id : Key)
    (locations : list LatLon) : Prop :=
  exists pts : list Shapes.row,
    locations = map (fun p => (Shapes.shape_pt_lat p, Shapes.shape_pt_lon p)) pts
    /\ pts ≡ₚ List.filter (fun p => bool_decide (Shapes.shape_id p = shape_id))
                          shapes
    /\ StronglySorted
         (fun a b => Shapes.shape_pt_sequence a <= Shapes.shape_pt_sequence b)
         pts.

(** [line] is the line of the path of [row]: drawn through the points of
    the path, in the colour of the mode, with the route name of [row] in
    its tooltip *)
Definition is_route_line (shapes : list Shapes.row) (color label : string)
    (row : TripRoutes.row) (line : Feature) : Prop :=
  exists locations : list LatLon,
    line = PolyLine locations color 2 (7 # 10)
             (label +:+ " Route "
                +:+ astype_str (TripRoutes.route_short_name row))
    /\ drawn_through shapes (TripRoutes.shape_id row) locations.

(** the first exception among the four reads of lines 170-173 *)
Definition read_failure (f : GtfsFolder) : option exn :=
  match shapes_txt f, trips_txt f, routes_txt f, stops_txt f with
  | Raise e, _, _, _ => Some e
  | Ok _, Raise e, _, _ => Some e
  | Ok _, Ok _, Raise e, _ => Some e
  | Ok _, Ok _, Ok _, Raise e => Some e
  | Ok _, Ok _, Ok _, Ok _ => None
  end.

(** folium accepts every feature the script builds from these tables *)
Definition accepted (validate_locations : list LatLon -> option exn)
    (validate_location : LatLon -> option exn) (show_stops : bool)
    (shapes : list Shapes.row) (trips : list Trips.row)
    (stops : list Stops.row) : Prop :=
  (forall t, t ∈ trips ->
     validate_locations (shape_coords shapes (Trips.shape_id t)) = None)
  /\ (show_stops = true ->
      forall s, s ∈ stops ->
        validate_location (Stops.stop_lat s, Stops.stop_lon s) = None).

(** the features grouped in a layer *)
Definition layer_children (l : Layer) : list Feature :=
  match l with
  | FeatureGroup _ _ children => children
  | _ => []
  end.

(** the line features of a list of layers *)
Definition line_features (layers : list Layer) : list Feature :=
  List.filter is_PolyLine (flat_map layer_children layers).

(** the coordinates a feature is drawn at *)
Definition locations_of (f : Feature) : list LatLon :=
  match f with
  | PolyLine locations _ _ _ _ => locations
  | CircleMarker location _ _ _ _ _ => [location]
  end.

(** C6 as the specification words it, on the layers a mode has added:
    never more line features than distinct path ids among the trips, and
    never fewer than the path ids whose geometry is present. *)
Definition draws_each_path (shapes : list Shapes.row) (trips : list Trips.row)
    (added : list Layer) : Prop :=
  (length (line_features added) <= size (referenced_paths trips))%nat
  /\ (size (paths_with_points shapes trips) <= length (line_features added))%nat.

(** C10 as the specification words it, on the map and the errors before
    and after a mode is plotted: no error is raised, and the layers the
    mode adds hold a line feature whose coordinate list is empty. *)
Definition emits_empty_line (before after : Map * list string) : Prop :=
  snd after = snd before
  /\ exists added,
       fst after = fst before ++ added
       /\ exists line, line ∈ line_features added /\ locations_of line = [].

(** the message of line 218 *)
Definition failure_message (label : string) (e : exn) : string :=
  "Failed to load " +:+ label +:+ " data: " +:+ exn_str e.

(** the line feature lines 191-200 build at a row of [trip_routes] *)
Definition route_line (shapes : list Shapes.row) (color label : string)
    (row : TripRoutes.row) : Feature :=
  PolyLine (shape_coords shapes (TripRoutes.shape_id row)) color 2 (7 # 10)
    (label +:+ " Route " +:+ format_cell (TripRoutes.route_short_name row)).

(** the point feature lines 204-211 build at a row of [stops] *)
Definition stop_marker (color label : string) (stop : Stops.row) : Feature :=
  CircleMarker (Stops.stop_lat stop, Stops.stop_lon stop) 2 color true (6 # 10)
    (label +:+ " Stop: " +:+ Stops.stop_name stop).

(** no unit of the density layer has zero area *)
Definition no_zero_area_unit (rows : list GeoUnit) : Prop :=
  forall u, u ∈ rows -> is_zero (area_km2 u) = false.

(** *** Further vocabulary *)

(** the rows of the requests that succeeded, county by county *)
Definition succeeded (responses : list (string * (list CensusRow + string)))
  : list (list CensusRow) :=
  omap (fun r => match snd r with inl rows => Some rows | inr _ => None end)
       responses.

(** the counties whose request failed, with the text of the exception *)
Definition failed (responses : list (string * (list CensusRow + string)))
  : list (string * string) :=
  omap (fun r => match snd r with inl _ => None | inr e => Some (fst r, e) end)
       responses.

(** the strict order of two densities; a comparison with [NaN] is false *)
Definition flt (x y : float64) : bool := fle x y && negb (fle y x).

(** *** Inputs used in examples *)

Definition exact : Q -> Q := fun q => q.

Definition accept_locations : list LatLon -> option exn := fun _ => None.
Definition accept_location : LatLon -> option exn := fun _ => None.

(** folium's check of a list of locations that hold no [NaN]: an empty
    list is refused *)
Definition refuse_empty (l : list LatLon) : option exn :=
  match l with
  | [] => Some (ValueError "Locations is empty.")
  | _ => None
  end.

Definition empty_folder : GtfsFolder :=
  {| shapes_txt := Raise (FileNotFoundError "shapes.txt");
     trips_txt := Raise (FileNotFoundError "trips.txt");
     routes_txt := Raise (FileNotFoundError "routes.txt");
     stops_txt := Raise (FileNotFoundError "stops.txt") |}.

(** a stand-in for the projected area: 1 km² for a geometry with a ring,
    zero for the empty geometry *)
Definition area_by_rings (g : Geometry) : float64 :=
  match g with
  | [] => Fin 0
  | _ => Fin 1000000
  end.

Definition square : Geometry :=
  [[(Fin (-77), Fin 39); (Fin (-76), Fin 39); (Fin (-76), Fin 40);
    (Fin (-77), Fin 40); (Fin (-77), Fin 39)]].

Definition pop_100 : list PopRow :=
  [ {| pop_GEOID := "240010001001"; pop_population := Fin 100 |} ].

Definition shp_square : list ShapeRow :=
  [ {| shp_GEOID := CStr "240010001001"; shp_geometry := square |} ].

Definition shp_degenerate : list ShapeRow :=
  [ {| shp_GEOID := CStr "240010001001"; shp_geometry := [] |} ].

(** a feed with two trips on path "s1", one trip on path "s2" that has no
    points in [shapes.txt] and whose route is not in [routes.txt], and
    one stop *)
Definition small_shapes : list Shapes.row :=
  [ {| Shapes.shape_id := KStr "s1"; Shapes.shape_pt_lat := Fin 39;
       Shapes.shape_pt_lon := Fin (-76); Shapes.shape_pt_sequence := 2 |};
    {| Shapes.shape_id := KStr "s1"; Shapes.shape_pt_lat := Fin 40;
       Shapes.shape_pt_lon := Fin (-77); Shapes.shape_pt_sequence := 1 |} ].

Definition small_trips : list Trips.row :=
  [ {| Trips.route_id := KStr "r1"; Trips.shape_id := KStr "s1" |};
    {| Trips.route_id := KStr "r1"; Trips.shape_id := KStr "s1" |};
    {| Trips.route_id := KStr "r2"; Trips.shape_id := KStr "s2" |} ].

Definition small_routes : list Routes.row :=
  [ {| Routes.route_id := KStr "r1"; Routes.route_short_name := CInt 22 |} ].

Definition small_stops : list Stops.row :=
  [ {| Stops.stop_lat := Fin 39; Stops.stop_lon := Fin (-76);
       Stops.stop_name := "Penn Station" |} ].

Definition small_feed : GtfsFolder :=
  {| shapes_txt := Ok small_shapes;
     trips_txt := Ok small_trips;
     routes_txt := Ok small_routes;
     stops_txt := Ok small_stops |}.

(** the feed of "Light Rail" is on disk, every other folder is missing *)
Definition light_rail_only : FileSystem :=
  fun folder => if String.eqb folder "light_rail" then small_feed
                else empty_folder.

(** a feed in which every path has points and every trip has a route *)
Definition complete_shapes : list Shapes.row :=
  [ {| Shapes.shape_id := KStr "s1"; Shapes.shape_pt_lat := Fin 39;
       Shapes.shape_pt_lon := Fin (-76); Shapes.shape_pt_sequence := 2 |};
    {| Shapes.shape_id := KStr "s2"; Shapes.shape_pt_lat := Fin 38;
       Shapes.shape_pt_lon := Fin (-75); Shapes.shape_pt_sequence := 1 |};
    {| Shapes.shape_id := KStr "s1"; Shapes.shape_pt_lat := Fin 40;
       Shapes.shape_pt_lon := Fin (-77); Shapes.shape_pt_sequence := 1 |};
    {| Shapes.shape_id := KStr "s2"; Shapes.shape_pt_lat := Fin 37;
       Shapes.shape_pt_lon := Fin (-74); Shapes.shape_pt_sequence := 2 |} ].

Definition complete_trips : list Trips.row :=
  [ {| Trips.route_id := KStr "r1"; Trips.shape_id := KStr "s1" |};
    {| Trips.route_id := KStr "r1"; Trips.shape_id := KStr "s1" |};
    {| Trips.route_id := KStr "r2"; Trips.shape_id := KStr "s2" |} ].

Definition complete_routes : list Routes.row :=
  [ {| Routes.route_id := KStr "r1"; Routes.route_short_name := CInt 22 |};
    {| Routes.route_id := KStr "r2"; Routes.route_short_name := CInt 7 |} ].

Definition complete_stops : list Stops.row :=
  [ {| Stops.stop_lat := Fin 39; Stops.stop_lon := Fin (-76);
       Stops.stop_name := "Penn Station" |} ].

Definition complete_feed : GtfsFolder :=
  {| shapes_txt := Ok complete_shapes;
     trips_txt := Ok complete_trips;
     routes_txt := Ok complete_routes;
     stops_txt := Ok complete_stops |}.

Definition light_rail_complete : FileSystem :=
  fun folder => if String.eqb folder "light_rail" then complete_feed
                else empty_folder.

(** the rows of [trip_routes] for [complete_feed] *)
Definition complete_trip_routes : list TripRoutes.row :=
  [ {| TripRoutes.route_id := KStr "r1"; TripRoutes.shape_id := KStr "s1";
       TripRoutes.route_short_name := CInt 22 |};
    {| TripRoutes.route_id := KStr "r1"; TripRoutes.shape_id := KStr "s1";
       TripRoutes.route_short_name := CInt 22 |};
    {| TripRoutes.route_id := KStr "r2"; TripRoutes.shape_id := KStr "s2";
       TripRoutes.route_short_name := CInt 7 |} ].

(** a Maryland block group *)
Definition md_row : CensusRow :=
  {| NAME := "Block Group 1"; population_raw := Some "100";
     state := "24"; county := "001"; tract := "000100"; block_group := "1" |}.

(** * Properties *)

(** ** Identifier Normalizer *)

Lemma append_assoc (a b c : string) : (a +:+ b) +:+ c = a +:+ (b +:+ c).
Proof.
  induction a as [|x a IH]; [reflexivity|].
  change (String x ((a +:+ b) +:+ c) = String x (a +:+ b +:+ c)).
  now rewrite IH.
Qed.

(** The key of a tabular record is the twelve-digit code read off its
    fields from left to right. *)
Lemma tabular_GEOID_code (r : CensusRow) :
  tabular_GEOID r = state r +:+ county r +:+ tract r +:+ block_group r.
Proof. unfold tabular_GEOID. now rewrite !append_assoc. Qed.

(** A numeral that starts with a digit from 1 to 9 parses to a normalized
    decimal number. *)
Lemma nonzero_digit_numeral (c : ascii) (s : string) (d : Decimal.int) :
  is_digit c = true -> Ascii.eqb c "0" = false ->
  NilZero.int_of_string (String c s) = Some d ->
  Decimal.norm d = d.
Proof.
  intros Hd Hz.
  destruct c as [[] [] [] [] [] [] [] []];
    try discriminate Hd; try discriminate Hz;
    cbn [NilZero.int_of_string Ascii.eqb Bool.eqb];
    cbn [NilZero.uint_of_string NilEmpty.uint_of_string uint_of_char];
    destruct (NilEmpty.uint_of_string s) as [u|]; cbn;
    intros [= <-]; reflexivity.
Qed.

(** [str(int(s)) == s] for such a numeral. *)
Lemma py_str_int_numeral (c : ascii) (s : string) (z : Z) :
  is_digit c = true -> Ascii.eqb c "0" = false ->
  numeral_value (String c s) = Some z ->
  py_str_int z = String c s.
Proof.
  intros Hd Hz Hv. unfold numeral_value in Hv.
  destruct (NilZero.int_of_string (String c s)) as [d|] eqn:Hp;
    [|discriminate Hv].
  injection Hv as <-. unfold py_str_int.
  rewrite DecimalZ.to_of.
  rewrite (nonzero_digit_numeral c s d Hd Hz Hp).
  now apply NilZero.sis.
Qed.

Lemma length_append (a b : string) :
  String.length (a +:+ b) = (String.length a + String.length b)%nat.
Proof.
  induction a as [|x a IH]; [reflexivity|].
  change (S (String.length (a +:+ b))
          = S (String.length a + String.length b)). now rewrite IH.
Qed.

Lemma all_digits_append (a b : string) :
  all_digits (a +:+ b) = all_digits a && all_digits b.
Proof.
  induction a as [|x a IH]; [reflexivity|].
  change (is_digit x && all_digits (a +:+ b)
          = is_digit x && all_digits a && all_digits b).
  now rewrite IH, andb_assoc.
Qed.

(** Two concatenations with heads of the same length agree part by
    part. *)
Lemma append_inj_length (a1 a2 b1 b2 : string) :
  String.length a1 = String.length a2 ->
  a1 +:+ b1 = a2 +:+ b2 -> a1 = a2 /\ b1 = b2.
Proof.
  revert a2. induction a1 as [|x a1 IH]; intros [|y a2] Hlen H;
    try discriminate Hlen.
  - now split.
  - change (String x (a1 +:+ b1) = String y (a2 +:+ b2)) in H.
    injection H as -> H. injection Hlen as Hlen.
    destruct (IH a2 Hlen H) as [-> ->]. now split.
Qed.

Lemma fixed_width_length (n : nat) (s : string) :
  fixed_width n s = true -> String.length s = n /\ all_digits s = true.
Proof.
  unfold fixed_width. intros H. apply andb_prop in H as [Hl Hd].
  split; [now apply Nat.eqb_eq | exact Hd].
Qed.

Lemma well_formed_codes (r : CensusRow) :
  well_formed r = true ->
  fixed_width 2 (state r) = true /\ fixed_width 3 (county r) = true
  /\ fixed_width 6 (tract r) = true /\ fixed_width 1 (block_group r) = true.
Proof.
  unfold well_formed. intros H.
  apply andb_prop in H as [H Hb]. apply andb_prop in H as [H Ht].
  apply andb_prop in H as [Hs Hc]. now repeat split.
Qed.

(** A digit in front of a parsed numeral gives a numeral one digit
    longer. *)
Lemma uint_of_char_digit (c : ascii) (d : Decimal.uint) :
  is_digit c = true ->
  exists u, uint_of_char c (Some d) = Some u
            /\ Decimal.nb_digits u = S (Decimal.nb_digits d)
            /\ u <> Decimal.Nil.
Proof.
  intros Hd.
  destruct c as [[] [] [] [] [] [] [] []]; try discriminate Hd;
    eexists; (split; [reflexivity | split; [reflexivity | discriminate]]).
Qed.

Lemma all_digits_parse (s : string) :
  all_digits s = true ->
  exists u, NilEmpty.uint_of_string s = Some u
            /\ Decimal.nb_digits u = String.length s.
Proof.
  induction s as [|c s IH]; intros H.
  - exists Decimal.Nil. now split.
  - simpl in H. apply andb_prop in H as [Hc Hs].
    destruct (IH Hs) as (d & Hd & Hn).
    destruct (uint_of_char_digit c d Hc) as (u & Hu & Hnu & _).
    exists u. cbn [NilEmpty.uint_of_string]. rewrite Hd. split; [exact Hu|].
    rewrite Hnu, Hn. reflexivity.
Qed.

(** The value of a non-empty string of digits. *)
Lemma numeral_value_digits (s : string) (n : Z) :
  all_digits s = true ->
  numeral_value s = Some n ->
  exists u, NilEmpty.uint_of_string s = Some u
            /\ Decimal.nb_digits u = String.length s
            /\ u <> Decimal.Nil
            /\ n = Z.of_int (Decimal.Pos u).
Proof.
  intros Hs Hv. destruct s as [|c s]; [discriminate Hv|].
  destruct (all_digits_parse _ Hs) as (u & Hu & Hn).
  exists u. split; [exact Hu|]. split; [exact Hn|].
  assert (Hc : is_digit c = true) by (simpl in Hs; now apply andb_prop in Hs).
  split.
  - intros ->. discriminate Hn.
  - unfold numeral_value, NilZero.int_of_string in Hv.
    assert (Hm : Ascii.eqb c "-" = false).
    { destruct c as [[] [] [] [] [] [] [] []]; try discriminate Hc;
        reflexivity. }
    rewrite Hm in Hv. unfold NilZero.uint_of_string in Hv.
    rewrite Hu in Hv. simpl in Hv. now injection Hv as <-.
Qed.

(** Two strings of digits of the same length with the same value are the
    same string. *)
Lemma numeral_value_inj (w : nat) (s1 s2 : string) (n : Z) :
  fixed_width w s1 = true -> fixed_width w s2 = true ->
  numeral_value s1 = Some n -> numeral_value s2 = Some n ->
  s1 = s2.
Proof.
  intros H1 H2 Hv1 Hv2.
  apply fixed_width_length in H1 as [Hl1 Hd1], H2 as [Hl2 Hd2].
  destruct (numeral_value_digits s1 n Hd1 Hv1) as (u1 & Hu1 & Hn1 & Hne1 & ->).
  destruct (numeral_value_digits s2 _ Hd2 Hv2) as (u2 & Hu2 & Hn2 & Hne2 & He).
  apply DecimalZ.of_inj in He. simpl in He. injection He as He.
  assert (Hu : u1 = u2).
  { rewrite <- (DecimalFacts.iter_D0_unorm u1 Hne1),
            <- (DecimalFacts.iter_D0_unorm u2 Hne2).
    rewrite He. f_equal. rewrite Hn1, Hn2, Hl1, Hl2. reflexivity. }
  apply NilEmpty.sus in Hu1, Hu2. rewrite <- Hu1, <- Hu2. now f_equal.
Qed.

(** The key of a well-formed tabular record is twelve digits. *)
Lemma tabular_GEOID_fixed_width (r : CensusRow) :
  well_formed r = true ->
  fixed_width 12 (state r +:+ county r +:+ tract r +:+ block_group r) = true.
Proof.
  intros H. apply well_formed_codes in H as (Hs & Hc & Ht & Hb).
  apply fixed_width_length in Hs as [? ?], Hc as [? ?], Ht as [? ?],
    Hb as [? ?].
  unfold fixed_width. rewrite !length_append, !all_digits_append.
  apply andb_true_intro. split.
  - apply Nat.eqb_eq. lia.
  - repeat (apply andb_true_intro; split); assumption.
Qed.

(** A string that ends in [".0"] is not a string of digits. *)
Lemma all_digits_float_text (s : string) : all_digits (s +:+ ".0") = false.
Proof.
  rewrite all_digits_append. apply andb_false_intro2. reflexivity.
Qed.

(** C1, as stated, fails: for a Maryland block group whose polygon key is
    held as float64 (a numeric field with a missing value somewhere in the
    column), [astype(str)] gives "240010001001.0", not the twelve
    characters of the tabular key. *)
Lemma normalizer_float_key_differs :
  ~ (forall (r : CensusRow) (c : cell),
       well_formed r = true -> state r = "24" -> same_geography r c ->
       tabular_GEOID r = astype_str c).
Proof.
  intros H.
  specialize (H md_row (CFloat 240010001001) eq_refl eq_refl).
  assert (Hsame : same_geography md_row (CFloat 240010001001))
    by (exists 240010001001; split; reflexivity).
  specialize (H Hsame). vm_compute in H. discriminate H.
Qed.

(** For a state code with a leading zero (none that the script requests)
    an integer key loses the zero as well. *)
Example unpadded_integer_key_differs :
  astype_str (CInt 10010001001) = "10010001001"
  /\ tabular_GEOID {| NAME := "Block Group 1"; population_raw := Some "100";
                      state := "01"; county := "001"; tract := "000100";
                      block_group := "1" |} = "010010001001".
Proof. split; reflexivity. Qed.

(** [str] of a number has as many characters as the number has digits,
    so fewer than a numeral that starts with a zero. *)
Lemma length_string_of_uint (d : Decimal.uint) :
  String.length (NilEmpty.string_of_uint d) = Decimal.nb_digits d.
Proof. induction d; simpl; congruence. Qed.

Lemma py_str_int_leading_zero (s : string) (z : Z) :
  s <> "" -> all_digits s = true ->
  numeral_value (String "0" s) = Some z ->
  (String.length (py_str_int z) < String.length (String "0" s))%nat.
Proof.
  intros Hne Hs Hv.
  destruct (all_digits_parse s Hs) as (u & Hu & Hn).
  assert (Hnil : u <> Decimal.Nil).
  { intros ->. destruct s; [now apply Hne | discriminate Hn]. }
  unfold numeral_value, NilZero.int_of_string, NilZero.uint_of_string in Hv.
  cbn [Ascii.eqb Bool.eqb NilEmpty.uint_of_string] in Hv.
  rewrite Hu in Hv.
  assert (Hz : z = Z.of_int (Decimal.Pos (Decimal.D0 u)))
    by (now injection Hv).
  rewrite Hz.
  unfold py_str_int. rewrite DecimalZ.to_of.
  change (Decimal.norm (Decimal.Pos (Decimal.D0 u)))
    with (Decimal.Pos (Decimal.unorm u)).
  pose proof (DecimalFacts.nb_digits_unorm u Hnil) as Hle.
  assert (Hpos : (0 < String.length s)%nat)
    by (destruct s; [contradiction | simpl; lia]).
  cbn [NilZero.string_of_int String.length]. unfold NilZero.string_of_uint.
  destruct (Decimal.unorm u) eqn:Hun;
    rewrite ?length_string_of_uint; cbn [String.length]; lia.
Qed.

(** C1 (amended): for a well-formed tabular record and a polygon key that
    stand for the same geography code, the two canonical keys are
    byte-identical, and the join of line 129 matches them, exactly when
    the polygon key is stored as text of twelve digits, or as an integer
    and the state code has no leading zero (as for Maryland, state 24).
    A key stored as text of another width, or as an integer with a state
    code that starts with a zero, differs; and so does a key stored as
    float64, to which [astype(str)] appends ".0": the join does not match
    them. *)
Theorem normalizer_keys_agree (r : CensusRow) (c : cell) :
  well_formed r = true ->
  same_geography r c ->
  (stored_as_text c = true ->
   (tabular_GEOID r = astype_str c
    <-> String.length (astype_str c) = 12%nat)
   /\ String.eqb (astype_str c) (tabular_GEOID r)
      = (String.length (astype_str c) =? 12)%nat)
  /\ (stored_as_int c = true ->
      (tabular_GEOID r = astype_str c <-> leading_zero (state r) = false)
      /\ String.eqb (astype_str c) (tabular_GEOID r)
         = negb (leading_zero (state r)))
  /\ (stored_as_float c = true ->
      tabular_GEOID r <> astype_str c
      /\ String.eqb (astype_str c) (tabular_GEOID r) = false).
Proof.
  intros Hwf (n & Hcode & Hkey).
  pose proof (tabular_GEOID_fixed_width r Hwf) as Hfw.
  assert (Hbool : forall (s : string) (b : bool),
            (tabular_GEOID r = s <-> b = true) ->
            String.eqb s (tabular_GEOID r) = b).
  { intros s b Hiff. destruct (String.eqb_spec s (tabular_GEOID r)) as [He|He].
    - symmetry. apply Hiff. now symmetry.
    - destruct b; [|reflexivity]. exfalso. apply He. symmetry. now apply Hiff. }
  rewrite tabular_GEOID_code in *.
  pose proof (fixed_width_length _ _ Hfw) as [Hlen Hdig].
  split; [|split].
  - intros Ht. destruct c as [s| | |]; try discriminate Ht. simpl in *.
    destruct (all_digits s) eqn:Hs; [|discriminate Hkey].
    assert (Hiff : state r +:+ county r +:+ tract r +:+ block_group r = s
                   <-> String.length s = 12%nat).
    { split; [now intros <-|]. intros Hl.
      apply (numeral_value_inj 12 _ _ n); try assumption.
      unfold fixed_width. now rewrite Hl, Hs. }
    split; [exact Hiff|]. apply Hbool. now rewrite Hiff, Nat.eqb_eq.
  - intros Hi. destruct c as [|z| |]; try discriminate Hi. simpl in *.
    injection Hkey as ->.
    apply well_formed_codes in Hwf as (Hst & _).
    apply fixed_width_length in Hst as [Hlst Hdst].
    destruct (state r) as [|a st] eqn:Hstate; [discriminate Hlst|].
    change (String a st +:+ county r +:+ tract r +:+ block_group r)
      with (String a (st +:+ county r +:+ tract r +:+ block_group r)) in *.
    simpl in Hdig. apply andb_prop in Hdig as [Hda Hdrest].
    assert (Hiff : String a (st +:+ county r +:+ tract r +:+ block_group r)
                   = py_str_int n
                   <-> leading_zero (String a st) = false).
    { cbn [leading_zero]. split.
      - intros Heq. destruct (Ascii.eqb_spec a "0") as [->|]; [|reflexivity].
        exfalso.
        assert (Hlt : (String.length (py_str_int n)
                       < String.length
                           (String "0" (st +:+ county r +:+ tract r
                                           +:+ block_group r)))%nat).
        { apply py_str_int_leading_zero; [|exact Hdrest | exact Hcode].
          intros Hnil. rewrite Hnil in Hlen. discriminate Hlen. }
        rewrite <- Heq in Hlt. lia.
      - intros Hz. symmetry. now apply py_str_int_numeral. }
    split; [exact Hiff|]. apply Hbool. rewrite Hiff.
    now destruct (leading_zero (String a st)).
  - intros Hf. destruct c as [| |z|]; try discriminate Hf. simpl.
    assert (Hne : state r +:+ county r +:+ tract r +:+ block_group r
                  <> py_str_int z +:+ ".0").
    { intros Heq. rewrite Heq in Hdig.
      rewrite all_digits_float_text in Hdig. discriminate Hdig. }
    split; [exact Hne|]. apply String.eqb_neq. now intros Heq; apply Hne.
Qed.

Lemma normalizer_keys_agree_maryland :
  (stored_as_text (CInt 240010001001) = true ->
   (tabular_GEOID md_row = astype_str (CInt 240010001001)
    <-> String.length (astype_str (CInt 240010001001)) = 12%nat)
   /\ String.eqb (astype_str (CInt 240010001001)) (tabular_GEOID md_row)
      = (String.length (astype_str (CInt 240010001001)) =? 12)%nat)
  /\ (stored_as_int (CInt 240010001001) = true ->
      (tabular_GEOID md_row = astype_str (CInt 240010001001)
       <-> leading_zero (state md_row) = false)
      /\ String.eqb (astype_str (CInt 240010001001)) (tabular_GEOID md_row)
         = negb (leading_zero (state md_row)))
  /\ (stored_as_float (CInt 240010001001) = true ->
      tabular_GEOID md_row <> astype_str (CInt 240010001001)
      /\ String.eqb (astype_str (CInt 240010001001)) (tabular_GEOID md_row)
         = false).
Proof.
  apply (normalizer_keys_agree md_row (CInt 240010001001)).
  - reflexivity.
  - exists 240010001001. split; reflexivity.
Defined.

(** The three ways of storing the key of the Maryland block group
    24-001-000100-1. *)
Example maryland_keys :
  astype_str (CStr "240010001001") = tabular_GEOID md_row
  /\ astype_str (CInt 240010001001) = tabular_GEOID md_row
  /\ astype_str (CFloat 240010001001) = "240010001001.0".
Proof. repeat split; reflexivity. Qed.

(** When every request fails, [fetch_population_data] returns [None] and
    one warning per county. *)
Lemma fetch_population_data_all_failed (to_numeric : option string -> float64)
    (responses : list (string * (list CensusRow + string))) :
  Forall (fun r => exists e, snd r = inr e) responses ->
  fst (fetch_population_data to_numeric responses) = None
  /\ length (snd (fetch_population_data to_numeric responses))
     = length responses.
Proof.
  intros H. unfold fetch_population_data.
  assert (Hloop : fst (fetch_loop to_numeric responses) = []
                  /\ length (snd (fetch_loop to_numeric responses))
                     = length responses).
  { induction H as [|[cty r] rest [e He] _ IH]; [split; reflexivity|].
    simpl in He. subst r. simpl.
    destruct (fetch_loop to_numeric rest) as [all_data warns].
    simpl in *. destruct IH as [-> ->]. split; reflexivity. }
  destruct (fetch_loop to_numeric responses) as [all_data warns].
  simpl in Hloop. destruct Hloop as [-> Hlen]. now split.
Qed.

(** With equal keys, the join of line 129 gives the polygon the population
    of the tabular record. *)
Lemma join_row_matches (to_numeric : option string -> float64)
    (rows : list CensusRow) (r : CensusRow) (c : cell) (g : Geometry) :
  r ∈ rows ->
  tabular_GEOID r = astype_str c ->
  {| j_GEOID := astype_str c; j_geometry := g;
     j_population := to_numeric (population_raw r) |}
  ∈ join_row (county_frame to_numeric rows) (astype_str c) g.
Proof.
  intros Hr Hkey. unfold join_row.
  set (p := {| pop_GEOID := tabular_GEOID r;
               pop_population := to_numeric (population_raw r) |}).
  assert (Hp : In p (List.filter
                       (fun p => String.eqb (astype_str c) (pop_GEOID p))
                       (county_frame to_numeric rows))).
  { apply filter_In. split.
    - unfold county_frame. apply in_map_iff. exists r.
      split; [reflexivity | now apply list_elem_of_In].
    - simpl. rewrite Hkey. apply String.eqb_refl. }
  destruct (List.filter _ (county_frame to_numeric rows)) as [|p0 ps];
    [destruct Hp|].
  apply list_elem_of_In, in_map_iff. exists p. split; [reflexivity | exact Hp].
Qed.

(** ** Choropleth Classifier *)

(** Line 140 on a non-negative maximum: one more than the number of whole
    thousands, times a thousand. *)
Lemma round_max_nonneg (q : Q) :
  (0 <= q)%Q -> round_max (Fin q) = Ok ((Qfloor (q / 1000) + 1) * 1000).
Proof.
  intros Hq. unfold round_max, floordiv, fadd_int, py_int.
  change (inject_Z 1000) with (1000 : Q).
  assert (Hk : 0 <= Qfloor (q / 1000)).
  { change 0 with (Qfloor 0). apply Qfloor_resp_le.
    apply Qle_shift_div_l; [reflexivity|]. now rewrite Qmult_0_l. }
  rewrite <- inject_Z_plus, Qfloor_Z.
  assert (Hle : Qle_bool 0 (inject_Z (Qfloor (q / 1000) + 1)) = true).
  { apply Qle_bool_iff. change (0%Q) with (inject_Z 0).
    rewrite <- Zle_Qle. lia. }
  now rewrite Hle.
Qed.

(** The rounded maximum is the least multiple of 1000 above the maximum. *)
Lemma round_max_bounds (q : Q) :
  (inject_Z ((Qfloor (q / 1000) + 1) * 1000) - 1000 <= q
   /\ q < inject_Z ((Qfloor (q / 1000) + 1) * 1000))%Q.
Proof.
  pose proof (Qfloor_le (q / 1000)) as Hlo.
  pose proof (Qlt_floor (q / 1000)) as Hhi.
  rewrite inject_Z_mult. rewrite inject_Z_plus in *.
  change (inject_Z 1000) with 1000%Q.
  change (inject_Z 1) with 1%Q in *.
  assert (Hq : (q == q / 1000 * 1000)%Q) by (field).
  set (x := (q / 1000)%Q) in *. set (k := inject_Z (Qfloor x)) in *.
  clearbody k. clearbody x. split; lra.
Qed.

Lemma lookup_py_range_edges (w : Z) (n i : nat) (e : Z) :
  map (fun i : nat => 0 + Z.of_nat i * w) (seq 0 n) !! i = Some e ->
  e = Z.of_nat i * w.
Proof.
  rewrite list_lookup_fmap. intros H.
  destruct (seq 0 n !! i) as [j|] eqn:Hj; [|discriminate H].
  apply lookup_seq in Hj as [-> _]. simpl in H. injection H as <-. lia.
Qed.

(** Line 141 on a positive multiple of 1000. *)
Lemma bins_of_thousands (j : Z) :
  1 <= j ->
  exists n : nat,
    bins (j * 1000)
    = Ok (map (fun i : nat => 0 + Z.of_nat i * (j * 100)) (seq 0 n))
    /\ (11 <= n)%nat
    /\ (10 <= j -> n = 11%nat).
Proof.
  intros Hj. unfold bins, py_range.
  assert (Hw : j * 1000 / 10 = j * 100).
  { replace (j * 1000) with (j * 100 * 10) by lia. now apply Z.div_mul. }
  rewrite Hw.
  destruct (j * 100 =? 0) eqn:H0; [lia|].
  destruct (0 <? j * 100) eqn:Hpos; [|lia].
  set (N := (j * 1000 + 1000 - 0 + j * 100 - 1) / (j * 100)).
  assert (HN : 11 <= N).
  { unfold N. apply Z.div_le_lower_bound; lia. }
  exists (Z.to_nat (Z.max 0 N)). split; [reflexivity|]. split; [lia|].
  intros H10.
  assert (N = 11); [|lia].
  unfold N. symmetry. apply (Z.div_unique _ _ 11 999); lia.
Qed.

(** The scenario of the specification: a maximum density of 100. *)
Example classify_100 :
  classify (Fin 100)
  = Ok (1000, [0; 100; 200; 300; 400; 500; 600; 700; 800; 900; 1000;
               1100; 1200; 1300; 1400; 1500; 1600; 1700; 1800; 1900]).
Proof. reflexivity. Qed.

(** A maximum that is a whole number of thousands is moved to the next
    thousand. *)
Example classify_14000 :
  classify (Fin 14000)
  = Ok (15000, [0; 1500; 3000; 4500; 6000; 7500; 9000; 10500; 12000;
                13500; 15000]).
Proof. reflexivity. Qed.

(** C2, as stated, fails on its own scenario: for the maximum 100 the
    rounded maximum is 1000, but [range(0, 2000, 100)] has twenty edges,
    up to 1900, not the eleven edges of ten bins of [[0, 1000]]. *)
Lemma classifier_not_ten_bins_at_100 : ~ rounds_up_into_ten_bins 100.
Proof.
  unfold rounds_up_into_ten_bins. rewrite classify_100.
  vm_compute. intros H. discriminate H.
Qed.

(** C2 (amended): on a non-negative maximum [q] the classifier returns the
    least multiple [M] of 1000 that is greater than [q] (so a maximum that
    is already a multiple of 1000 moves up by 1000), and bin edges that
    start at 0 and advance by [M / 10]; the first eleven edges are those of
    ten equal-width bins of [[0, M]], and they are all the edges once [M]
    is at least 10000. *)
Theorem classify_edges (q : Q) :
  (0 <= q)%Q ->
  exists (M : Z) (edges : list Z),
    classify (Fin q) = Ok (M, edges)
    /\ M = (Qfloor (q / 1000) + 1) * 1000
    /\ (inject_Z M - 1000 <= q /\ q < inject_Z M)%Q
    /\ (forall (i : nat) (e : Z),
          edges !! i = Some e -> e = Z.of_nat i * (M / 10))
    /\ take 11 edges = ten_bins M
    /\ (10000 <= M -> edges = ten_bins M).
Proof.
  intros Hq.
  assert (Hj : 1 <= Qfloor (q / 1000) + 1).
  { assert (0 <= Qfloor (q / 1000)); [|lia].
    change 0 with (Qfloor 0). apply Qfloor_resp_le.
    apply Qle_shift_div_l; [reflexivity|]. now rewrite Qmult_0_l. }
  set (j := Qfloor (q / 1000) + 1) in *.
  destruct (bins_of_thousands j Hj) as (n & Hbins & Hn & Hn10).
  assert (Hw : j * 1000 / 10 = j * 100).
  { replace (j * 1000) with (j * 100 * 10) by lia. now apply Z.div_mul. }
  assert (Hten : forall m : nat,
             map (fun i : nat => 0 + Z.of_nat i * (j * 100)) (seq 0 m)
             = map (fun i : nat => Z.of_nat i * (j * 1000 / 10)) (seq 0 m)).
  { intros m. apply map_ext. intros i. rewrite Hw. lia. }
  exists (j * 1000), (map (fun i : nat => 0 + Z.of_nat i * (j * 100)) (seq 0 n)).
  split; [|split; [|split; [|split; [|split]]]].
  - unfold classify. rewrite (round_max_nonneg q Hq). fold j.
    cbn [mbind result_bind]. now rewrite Hbins.
  - reflexivity.
  - apply round_max_bounds.
  - intros i e He. rewrite Hw. now apply lookup_py_range_edges in He.
  - unfold ten_bins. rewrite <- Hten, <- fmap_take, take_seq.
    now replace (11 `min` n)%nat with 11%nat by lia.
  - intros HM. unfold ten_bins. rewrite <- Hten.
    rewrite Hn10; [reflexivity | lia].
Qed.

Lemma classify_edges_at_100 :
  exists edges : list Z,
    classify (Fin 100) = Ok (1000, edges)
    /\ (forall (i : nat) (e : Z), edges !! i = Some e -> e = Z.of_nat i * 100)
    /\ take 11 edges
       = [0; 100; 200; 300; 400; 500; 600; 700; 800; 900; 1000].
Proof.
  assert (H100 : (0 <= 100)%Q) by (vm_compute; discriminate).
  destruct (classify_edges 100 H100) as (M & edges & Hc & HM & _ & Hi & Ht & _).
  vm_compute in HM. subst M. exists edges.
  split; [exact Hc|]. split; [exact Hi | exact Ht].
Defined.

(** ** Population Density Calculator *)

Lemma clip_upper_of_nonneg (x : float64) :
  x = PInf \/ (exists q, x = Fin q /\ (0 <= q)%Q) ->
  fle (Fin 0) (clip_upper 14000 x) = true
  /\ fle (clip_upper 14000 x) (Fin 14000) = true.
Proof.
  intros [-> | (q & -> & Hq)]; simpl; [split; reflexivity|].
  destruct (Qle_bool q 14000) eqn:Hle; simpl.
  - split; [now apply Qle_bool_iff | exact Hle].
  - split; reflexivity.
Qed.

(** Every row of the join carries the geometry of a row of [shapes_gdf]. *)
Lemma merge_left_geometry (shp : list ShapeRow) (pop : list PopRow)
    (r : JoinedRow) :
  r ∈ merge_left shp pop ->
  exists s, s ∈ shp /\ j_geometry r = shp_geometry s.
Proof.
  unfold merge_left. rewrite list_elem_of_In, in_flat_map.
  intros (s & Hs & Hr). exists s. split; [now apply list_elem_of_In|].
  unfold join_row in Hr.
  destruct (List.filter _ pop) as [|p ps].
  - destruct Hr as [<- | []]. reflexivity.
  - apply in_map_iff in Hr as (p' & <- & _). reflexivity.
Qed.

Section DensityProperties.
Variable rnd : Q -> Q.
Hypothesis rnd_monotone : forall x y : Q, (x <= y)%Q -> (rnd x <= rnd y)%Q.
Hypothesis rnd_zero : (rnd 0 == 0)%Q.
Variable area_3857 : Geometry -> float64.

Lemma rnd_nonneg (q : Q) : (0 <= q)%Q -> (0 <= rnd q)%Q.
Proof. intros Hq. rewrite <- rnd_zero. now apply rnd_monotone. Qed.

Lemma rnd_of_zero (q : Q) : (q == 0)%Q -> (rnd q == 0)%Q.
Proof.
  intros Hq. rewrite <- rnd_zero.
  apply Qle_antisym; apply rnd_monotone; rewrite Hq; apply Qle_refl.
Qed.

(** line 131 on a finite area *)
Lemma area_km2_finite (A : Q) :
  fdiv rnd (Fin A) (Fin 1000000) = Fin (rnd (A / 1000000)).
Proof. reflexivity. Qed.

(** line 132 for a present, positive population and a non-negative
    area: positive infinity, or a non-negative number *)
Lemma density_of_positive (x : float64) (z : Q) :
  notna x = true -> gt0 x = true -> (0 <= z)%Q ->
  fdiv rnd x (Fin z) = PInf
  \/ exists q, fdiv rnd x (Fin z) = Fin q /\ (0 <= q)%Q.
Proof.
  intros Hna Hgt Hz. destruct x as [p| | |]; try discriminate.
  - simpl in Hgt. apply negb_true_iff in Hgt.
    assert (Hp : (0 < p)%Q).
    { apply Qnot_le_lt. intros Hle. apply Qle_bool_iff in Hle. congruence. }
    unfold fdiv. destruct (Qeq_bool z 0) eqn:Hz0.
    + left. rewrite Hgt.
      destruct (Qeq_bool p 0) eqn:Hp0; [|reflexivity].
      apply Qeq_bool_iff in Hp0. rewrite Hp0 in Hp. now apply Qlt_irrefl in Hp.
    + right. eexists. split; [reflexivity|]. apply rnd_nonneg.
      apply Qle_shift_div_l.
      * apply Qeq_bool_neq in Hz0. apply Qle_lteq in Hz as [Hz|Hz];
          [exact Hz | now symmetry in Hz].
      * rewrite Qmult_0_l. now apply Qlt_le_weak.
  - left. simpl. apply Qle_bool_iff in Hz. now rewrite Hz.
Qed.

(** line 132 for a present, positive population and a zero area:
    positive infinity, without any exception *)
Lemma density_of_zero_area (x : float64) (z : Q) :
  notna x = true -> gt0 x = true -> (z == 0)%Q ->
  fdiv rnd x (Fin z) = PInf.
Proof.
  intros Hna Hgt Hz. destruct x as [p| | |]; try discriminate.
  - simpl in Hgt. apply negb_true_iff in Hgt. unfold fdiv.
    apply Qeq_bool_iff in Hz. rewrite Hz, Hgt.
    destruct (Qeq_bool p 0) eqn:Hp0; [|reflexivity].
    apply Qeq_bool_iff in Hp0.
    assert (Hle : Qle_bool p 0 = true)
      by (apply Qle_bool_iff; rewrite Hp0; apply Qle_refl).
    congruence.
  - simpl. assert (Hle : Qle_bool 0 z = true)
      by (apply Qle_bool_iff; rewrite Hz; apply Qle_refl).
    now rewrite Hle.
Qed.

Lemma elem_of_merged (pop : list PopRow) (shp : list ShapeRow)
    (rows : list GeoUnit) (u : GeoUnit) :
  merged rnd area_3857 (Some pop) (Some shp) = Some rows ->
  u ∈ rows <->
  exists r, r ∈ merge_left shp pop /\ has_population r = true
            /\ u = with_density rnd area_3857 r.
Proof.
  intros [= <-]. rewrite list_elem_of_In, in_map_iff. split.
  - intros (r & <- & Hr). apply filter_In in Hr as [Hr Hp].
    exists r. now rewrite list_elem_of_In.
  - intros (r & Hr & Hp & ->). exists r. split; [reflexivity|].
    apply filter_In. now rewrite <- list_elem_of_In.
Qed.

(** C5: every unit retained in [merged] comes from a row of the join
    whose population is present and strictly positive, and its density
    lies between 0 and the clip bound 14000; a row of the join whose
    population is absent or not positive yields no retained unit.  The
    area of a geometry is taken to be a non-negative real number. *)
Theorem retained_units_bounded (pop : list PopRow) (shp : list ShapeRow)
    (rows : list GeoUnit) :
  (forall s, s ∈ shp -> nonneg_real (area_3857 (shp_geometry s)) = true) ->
  merged rnd area_3857 (Some pop) (Some shp) = Some rows ->
  (forall u, u ∈ rows ->
     notna (population u) = true
     /\ gt0 (population u) = true
     /\ fle (Fin 0) (pop_density u) = true
     /\ fle (pop_density u) (Fin 14000) = true)
  /\ (forall r, r ∈ merge_left shp pop -> has_population r = false ->
        with_density rnd area_3857 r ∉ rows).
Proof.
  intros Harea Hm.
  assert (Hpos : forall u, u ∈ rows ->
            notna (population u) = true /\ gt0 (population u) = true).
  { intros u Hu. apply (elem_of_merged pop shp rows u Hm) in Hu
      as (r & _ & Hp & ->).
    now apply andb_prop in Hp. }
  split.
  - intros u Hu. destruct (Hpos u Hu) as [Hna Hgt].
    split; [exact Hna|]. split; [exact Hgt|].
    apply (elem_of_merged pop shp rows u Hm) in Hu as (r & Hr & Hp & ->).
    destruct (merge_left_geometry shp pop r Hr) as (s & Hs & Hg).
    specialize (Harea s Hs). rewrite <- Hg in Harea.
    unfold with_density; simpl in *.
    destruct (area_3857 (j_geometry r)) as [A| | |]; try discriminate.
    simpl in Harea. apply Qle_bool_iff in Harea.
    rewrite area_km2_finite. apply clip_upper_of_nonneg.
    apply density_of_positive; [exact Hna | exact Hgt|].
    apply rnd_nonneg. apply Qle_shift_div_l; [reflexivity|].
    now rewrite Qmult_0_l.
  - intros r Hr Hp Hin. destruct (Hpos _ Hin) as [Hna Hgt].
    simpl in Hna, Hgt. unfold has_population in Hp.
    rewrite Hna, Hgt in Hp. discriminate Hp.
Qed.

(** C3 (amended): a unit with a present, positive population and a
    geometry of zero area is retained in [merged]; its area in km² is
    zero, the division of line 132 yields positive infinity without
    raising, and line 133 clips that to 14000. *)
Theorem zero_area_unit_clipped (pop : list PopRow) (shp : list ShapeRow)
    (r : JoinedRow) :
  r ∈ merge_left shp pop ->
  has_population r = true ->
  is_zero (area_3857 (j_geometry r)) = true ->
  exists rows,
    merged rnd area_3857 (Some pop) (Some shp) = Some rows
    /\ with_density rnd area_3857 r ∈ rows
    /\ is_zero (area_km2 (with_density rnd area_3857 r)) = true
    /\ fdiv rnd (population (with_density rnd area_3857 r))
            (area_km2 (with_density rnd area_3857 r)) = PInf
    /\ pop_density (with_density rnd area_3857 r) = Fin 14000.
Proof.
  intros Hr Hp Hz. eexists. split; [reflexivity|]. split.
  { apply list_elem_of_In, in_map, filter_In.
    now rewrite <- list_elem_of_In. }
  unfold with_density; simpl.
  destruct (area_3857 (j_geometry r)) as [A| | |]; try discriminate.
  simpl in Hz. apply Qeq_bool_iff in Hz.
  rewrite area_km2_finite.
  assert (Hkm : (rnd (A / 1000000) == 0)%Q).
  { apply rnd_of_zero. rewrite Hz. reflexivity. }
  apply andb_prop in Hp as [Hna Hgt].
  rewrite (density_of_zero_area _ _ Hna Hgt Hkm).
  split; [|split; reflexivity].
  simpl. now apply Qeq_bool_iff.
Qed.
End DensityProperties.


Lemma exact_monotone (x y : Q) : (x <= y)%Q -> (exact x <= exact y)%Q.
Proof. intros H. exact H. Qed.

Lemma exact_zero : (exact 0 == 0)%Q.
Proof. reflexivity. Qed.

(** One block group of 100 people on 1 km²: density 100. *)
Example merged_square :
  exists u, merged exact area_by_rings (Some pop_100) (Some shp_square) = Some [u]
            /\ GEOID u = "240010001001"
            /\ pop_density u = Fin (100 / (1000000 / 1000000)).
Proof. eexists. split; [reflexivity|]. split; reflexivity. Qed.

Lemma retained_units_bounded_square :
  (forall u,
     u ∈ map (with_density exact area_by_rings)
             (List.filter has_population (merge_left shp_square pop_100)) ->
     notna (population u) = true
     /\ gt0 (population u) = true
     /\ fle (Fin 0) (pop_density u) = true
     /\ fle (pop_density u) (Fin 14000) = true)
  /\ (forall r, r ∈ merge_left shp_square pop_100 ->
        has_population r = false ->
        with_density exact area_by_rings r
          ∉ map (with_density exact area_by_rings)
                (List.filter has_population (merge_left shp_square pop_100))).
Proof.
  apply (retained_units_bounded exact exact_monotone exact_zero area_by_rings
           pop_100 shp_square).
  - intros s Hs. apply list_elem_of_singleton in Hs. subst s. reflexivity.
  - reflexivity.
Defined.

(** C3, as stated, fails: a block group of 100 people whose geometry has
    zero area is not excluded; it stays in [merged] with a zero area and
    the density 14000. *)
Lemma zero_area_unit_retained :
  ~ (forall rows,
       merged exact area_by_rings (Some pop_100) (Some shp_degenerate)
       = Some rows ->
       no_zero_area_unit rows).
Proof.
  intros H. specialize (H _ eq_refl).
  specialize (H _ (list_elem_of_here _ _)). vm_compute in H. discriminate H.
Qed.

Lemma zero_area_unit_clipped_degenerate :
  exists rows,
    merged exact area_by_rings (Some pop_100) (Some shp_degenerate) = Some rows
    /\ with_density exact area_by_rings
         {| j_GEOID := "240010001001"; j_geometry := [];
            j_population := Fin 100 |} ∈ rows
    /\ is_zero (area_km2 (with_density exact area_by_rings
         {| j_GEOID := "240010001001"; j_geometry := [];
            j_population := Fin 100 |})) = true
    /\ fdiv exact
         (population (with_density exact area_by_rings
            {| j_GEOID := "240010001001"; j_geometry := [];
               j_population := Fin 100 |}))
         (area_km2 (with_density exact area_by_rings
            {| j_GEOID := "240010001001"; j_geometry := [];
               j_population := Fin 100 |})) = PInf
    /\ pop_density (with_density exact area_by_rings
         {| j_GEOID := "240010001001"; j_geometry := [];
            j_population := Fin 100 |}) = Fin 14000.
Proof.
  apply (zero_area_unit_clipped exact exact_monotone exact_zero area_by_rings
           pop_100 shp_degenerate).
  - apply list_elem_of_here.
  - reflexivity.
  - reflexivity.
Defined.

(** ** Transit Layer Builder *)

(** *** The points of a path *)

Lemma insert_by_sequence_perm (p : Shapes.row) (l : list Shapes.row) :
  insert_by_sequence p l ≡ₚ p :: l.
Proof.
  induction l as [|q l IH]; simpl; [reflexivity|].
  destruct (Shapes.shape_pt_sequence p <=? Shapes.shape_pt_sequence q);
    [reflexivity|].
  rewrite IH. apply Permutation_swap.
Qed.

Lemma insert_by_sequence_sorted (p : Shapes.row) (l : list Shapes.row) :
  StronglySorted
    (fun a b => Shapes.shape_pt_sequence a <= Shapes.shape_pt_sequence b) l ->
  StronglySorted
    (fun a b => Shapes.shape_pt_sequence a <= Shapes.shape_pt_sequence b)
    (insert_by_sequence p l).
Proof.
  induction l as [|q l IH]; intros Hs; simpl.
  - repeat constructor.
  - apply StronglySorted_inv in Hs as [Hs Hq].
    destruct (Z.leb_spec (Shapes.shape_pt_sequence p)
                         (Shapes.shape_pt_sequence q)) as [Hle|Hgt].
    + constructor; [now constructor|].
      constructor; [exact Hle|].
      apply Forall_forall. intros x Hx.
      rewrite Forall_forall in Hq. specialize (Hq x Hx). lia.
    + constructor; [now apply IH|].
      apply Forall_forall. intros x Hx.
      rewrite (insert_by_sequence_perm p l) in Hx.
      apply elem_of_cons in Hx as [->|Hx]; [lia|].
      rewrite Forall_forall in Hq. now apply Hq.
Qed.

Lemma sort_values_sorted (l : list Shapes.row) :
  sort_values l ≡ₚ l
  /\ StronglySorted
       (fun a b => Shapes.shape_pt_sequence a <= Shapes.shape_pt_sequence b)
       (sort_values l).
Proof.
  unfold sort_values. induction l as [|p l [IHp IHs]]; simpl.
  - split; [reflexivity | constructor].
  - split.
    + rewrite insert_by_sequence_perm. now rewrite IHp.
    + now apply insert_by_sequence_sorted.
Qed.

(** The coordinate list of a path runs through its points in ascending
    order of their sequence numbers. *)
Lemma shape_coords_drawn_through (shapes : list Shapes.row) (sid : Key) :
  drawn_through shapes sid (shape_coords shapes sid).
Proof.
  unfold drawn_through, shape_coords. eexists. split; [reflexivity|].
  apply sort_values_sorted.
Qed.

Lemma has_points_false (shapes : list Shapes.row) (sid : Key) :
  has_points shapes sid = false
  <-> forall p, p ∈ shapes -> Shapes.shape_id p <> sid.
Proof.
  unfold has_points. induction shapes as [|p ps IH]; simpl.
  - split; [intros _ q Hq; inversion Hq | reflexivity].
  - rewrite orb_false_iff, IH, bool_decide_eq_false. split.
    + intros [Hp Hps] q Hq.
      apply elem_of_cons in Hq as [->|Hq]; [exact Hp | now apply Hps].
    + intros H. split; [apply H, list_elem_of_here|].
      intros q Hq. now apply H, list_elem_of_further.
Qed.

(** A path without points in [shapes.txt] has an empty coordinate list. *)
Lemma shape_coords_missing (shapes : list Shapes.row) (sid : Key) :
  (forall p, p ∈ shapes -> Shapes.shape_id p <> sid) ->
  shape_coords shapes sid = [].
Proof.
  intros Hno. unfold shape_coords.
  assert (Hf : List.filter
                 (fun p => bool_decide (Shapes.shape_id p = sid)) shapes
               = []); [|now rewrite Hf].
  induction shapes as [|p ps IH]; [reflexivity|]. simpl.
  destruct (bool_decide_reflect (Shapes.shape_id p = sid)) as [Heq|Hne].
  - exfalso. apply (Hno p); [apply list_elem_of_here | exact Heq].
  - apply IH. intros q Hq. apply Hno. now apply list_elem_of_further.
Qed.

(** *** The join of trips and routes keeps the path ids of the trips *)

Lemma trip_with_routes_ids (routes : list Routes.row) (t : Trips.row)
    (row : TripRoutes.row) :
  row ∈ trip_with_routes routes t ->
  TripRoutes.shape_id row = Trips.shape_id t.
Proof.
  unfold trip_with_routes. destruct (List.filter _ routes) as [|r rs].
  - intros H. apply list_elem_of_singleton in H. now subst row.
  - intros H. apply list_elem_of_In, in_map_iff in H as (r' & <- & _).
    reflexivity.
Qed.

Lemma trip_with_routes_nonempty (routes : list Routes.row) (t : Trips.row) :
  exists row, row ∈ trip_with_routes routes t.
Proof.
  unfold trip_with_routes. destruct (List.filter _ routes) as [|r rs];
    eexists; apply list_elem_of_here.
Qed.

Lemma joined_rows_ids (trips : list Trips.row) (routes : list Routes.row)
    (x : Key) :
  x ∈ map TripRoutes.shape_id (flat_map (trip_with_routes routes) trips)
  <-> x ∈ map Trips.shape_id trips.
Proof.
  rewrite !list_elem_of_In, !in_map_iff. split.
  - intros (row & <- & Hrow). apply in_flat_map in Hrow as (t & Ht & Hrow).
    exists t. split; [|exact Ht]. symmetry.
    apply (trip_with_routes_ids routes). now apply list_elem_of_In.
  - intros (t & <- & Ht).
    destruct (trip_with_routes_nonempty routes t) as (row & Hrow).
    exists row. split; [now apply (trip_with_routes_ids routes)|].
    apply in_flat_map. exists t. split; [exact Ht|].
    now apply list_elem_of_In.
Qed.

Lemma upcast_name_ids (rows : list TripRoutes.row) :
  map TripRoutes.shape_id (map upcast_name rows)
  = map TripRoutes.shape_id rows.
Proof. rewrite map_map. reflexivity. Qed.

Lemma merge_trip_routes_ids (trips : list Trips.row)
    (routes : list Routes.row) (trip_routes : list TripRoutes.row) (x : Key) :
  merge_trip_routes trips routes = Ok trip_routes ->
  x ∈ map TripRoutes.shape_id trip_routes
  <-> x ∈ map Trips.shape_id trips.
Proof.
  unfold merge_trip_routes.
  destruct (check_merge_keys _ _); [discriminate|].
  intros [= <-]. rewrite <- (joined_rows_ids trips routes x).
  destruct (names_upcast trips routes); [|reflexivity].
  now rewrite upcast_name_ids.
Qed.

(** *** The rows the loop plots *)

Lemma first_rows_ids (rows : list TripRoutes.row) (plotted : gset Key)
    (x : Key) :
  x ∈ map TripRoutes.shape_id (first_rows rows plotted)
  <-> x ∈ map TripRoutes.shape_id rows /\ x ∉ plotted.
Proof.
  revert plotted. induction rows as [|row rest IH]; intros plotted; simpl.
  - split; [intros H; inversion H | intros [H _]; inversion H].
  - destruct (decide (TripRoutes.shape_id row ∈ plotted)) as [Hin|Hout].
    + rewrite IH, elem_of_cons. split; [tauto|].
      intros [[->|H] Hx]; [contradiction | tauto].
    + simpl. rewrite !elem_of_cons, IH. split.
      * intros [->|[H Hx]]; [tauto|]. split; [tauto | set_solver].
      * intros [[->|H] Hx]; [tauto|].
        destruct (decide (x = TripRoutes.shape_id row)) as [->|Hne];
          [tauto|]. right. split; [exact H | set_solver].
Qed.

Lemma first_rows_NoDup (rows : list TripRoutes.row) (plotted : gset Key) :
  NoDup (map TripRoutes.shape_id (first_rows rows plotted)).
Proof.
  revert plotted. induction rows as [|row rest IH]; intros plotted; simpl.
  - constructor.
  - destruct (decide (TripRoutes.shape_id row ∈ plotted)); [apply IH|].
    simpl. constructor; [|apply IH].
    rewrite first_rows_ids. set_solver.
Qed.

Lemma first_rows_first (rows : list TripRoutes.row) (plotted : gset Key)
    (row : TripRoutes.row) :
  row ∈ first_rows rows plotted ->
  exists pre post,
    rows = pre ++ row :: post
    /\ forall r, r ∈ pre -> TripRoutes.shape_id r <> TripRoutes.shape_id row.
Proof.
  revert plotted. induction rows as [|r0 rest IH]; intros plotted H; simpl in H.
  - inversion H.
  - destruct (decide (TripRoutes.shape_id r0 ∈ plotted)) as [Hin|Hout].
    + pose proof H as H'.
      apply IH in H as (pre & post & -> & Hpre).
      exists (r0 :: pre), post. split; [reflexivity|].
      intros r Hr. apply elem_of_cons in Hr as [->|Hr]; [|now apply Hpre].
      intros Heq.
      assert (Hid : TripRoutes.shape_id row
                    ∈ map TripRoutes.shape_id
                          (first_rows (pre ++ row :: post) plotted)).
      { apply list_elem_of_In, in_map. now apply list_elem_of_In. }
      apply first_rows_ids in Hid as [_ Hid]. apply Hid. now rewrite <- Heq.
    + apply elem_of_cons in H as [->|H].
      * exists [], rest. split; [reflexivity|]. intros r Hr. inversion Hr.
      * pose proof H as H'.
        apply IH in H as (pre & post & -> & Hpre).
        exists (r0 :: pre), post. split; [reflexivity|].
        intros r Hr. apply elem_of_cons in Hr as [->|Hr]; [|now apply Hpre].
        intros Heq.
        assert (Hid : TripRoutes.shape_id row
                      ∈ map TripRoutes.shape_id
                          (first_rows (pre ++ row :: post)
                             (plotted ∪ {[ TripRoutes.shape_id r0 ]}))).
        { apply list_elem_of_In, in_map. now apply list_elem_of_In. }
        apply first_rows_ids in Hid as [_ Hid]. apply Hid.
        rewrite Heq. set_solver.
Qed.

Lemma plotted_order_NoDup (trip_routes : list TripRoutes.row) :
  NoDup (plotted_order trip_routes).
Proof. apply first_rows_NoDup. Qed.

Lemma elem_of_plotted_order (trips : list Trips.row)
    (routes : list Routes.row) (trip_routes : list TripRoutes.row) (x : Key) :
  merge_trip_routes trips routes = Ok trip_routes ->
  x ∈ plotted_order trip_routes <-> x ∈ referenced_paths trips.
Proof.
  intros Hm. unfold plotted_order, referenced_paths.
  rewrite first_rows_ids, (merge_trip_routes_ids trips routes trip_routes x Hm),
    elem_of_list_to_set.
  set_solver.
Qed.

(** The loop plots as many paths as the trips refer to. *)
Lemma length_plotted_order (trips : list Trips.row) (routes : list Routes.row)
    (trip_routes : list TripRoutes.row) :
  merge_trip_routes trips routes = Ok trip_routes ->
  length (plotted_order trip_routes) = size (referenced_paths trips).
Proof.
  intros Hm.
  rewrite <- (size_list_to_set (C := gset Key) (plotted_order trip_routes))
    by apply plotted_order_NoDup.
  f_equal. apply set_eq. intros x.
  now rewrite elem_of_list_to_set, (elem_of_plotted_order trips routes).
Qed.

Lemma line_features_lines (shapes : list Shapes.row) (color label : string)
    (rows : list TripRoutes.row) :
  List.filter is_PolyLine (map (route_line shapes color label) rows)
  = map (route_line shapes color label) rows.
Proof. induction rows as [|r rs IH]; [reflexivity|]. simpl. now rewrite IH. Qed.

Lemma line_features_markers (color label : string) (stops : list Stops.row) :
  List.filter is_PolyLine (map (stop_marker color label) stops) = [].
Proof. induction stops as [|s ss IH]; [reflexivity|]. simpl. exact IH. Qed.

(** The line features of the layers a mode adds are the children of its
    route layer. *)
Lemma line_features_added (shapes : list Shapes.row) (color label : string)
    (rows : list TripRoutes.row) (stops : list Stops.row) (show_stops : bool) :
  line_features
    (FeatureGroup (label +:+ " Routes") true
       (map (route_line shapes color label) rows)
     :: (if show_stops
         then [FeatureGroup (label +:+ " Stops") true
                 (map (stop_marker color label) stops)]
         else []))
  = map (route_line shapes color label) rows.
Proof.
  unfold line_features. cbn [flat_map layer_children].
  rewrite List.filter_app, line_features_lines.
  destruct show_stops; cbn [flat_map layer_children];
    rewrite ?app_nil_r, ?line_features_markers; now rewrite ?app_nil_r.
Qed.

(** The line built at a row is the line of the row's path, with the row's
    route name. *)
Lemma route_line_is_route_line (shapes : list Shapes.row)
    (color label : string) (row : TripRoutes.row) :
  is_route_line shapes color label row (route_line shapes color label row).
Proof.
  exists (shape_coords shapes (TripRoutes.shape_id row)).
  split; [reflexivity | apply shape_coords_drawn_through].
Qed.

Lemma route_lines_are_route_lines (shapes : list Shapes.row)
    (color label : string) (rows : list TripRoutes.row) :
  Forall2 (is_route_line shapes color label) rows
          (map (route_line shapes color label) rows).
Proof.
  induction rows as [|row rows IH]; simpl; constructor;
    [apply route_line_is_route_line | exact IH].
Qed.

Lemma route_lines_drawn_through (shapes : list Shapes.row)
    (color label : string) (rows : list TripRoutes.row) :
  Forall2 (fun sid line => is_PolyLine line = true
                           /\ drawn_through shapes sid (locations_of line))
          (map TripRoutes.shape_id rows)
          (map (route_line shapes color label) rows).
Proof.
  induction rows as [|row rows IH]; simpl; constructor; [|exact IH].
  split; [reflexivity | apply shape_coords_drawn_through].
Qed.

Section TransitProperties.
Variable validate_locations : list LatLon -> option exn.
Variable validate_location : LatLon -> option exn.
Variable fs : FileSystem.
Variable show_stops : bool.

(** *** The two loops, when folium accepts every feature *)

Lemma route_loop_ok (shapes : list Shapes.row) (color label : string)
    (rows : list TripRoutes.row) (plotted : gset Key)
    (route_group : list Feature) :
  (forall row, row ∈ rows ->
     validate_locations (shape_coords shapes (TripRoutes.shape_id row)) = None) ->
  route_loop validate_locations shapes color label rows plotted route_group
  = Ok (route_group
        ++ map (route_line shapes color label) (first_rows rows plotted)).
Proof.
  revert plotted route_group.
  induction rows as [|row rest IH]; intros plotted route_group Hv; simpl.
  - now rewrite app_nil_r.
  - destruct (decide (TripRoutes.shape_id row ∈ plotted)).
    + apply IH. intros r Hr. apply Hv. now apply list_elem_of_further.
    + unfold new_PolyLine. rewrite (Hv row (list_elem_of_here _ _)).
      cbn [mbind result_bind]. rewrite IH.
      * simpl. now rewrite <- app_assoc.
      * intros r Hr. apply Hv. now apply list_elem_of_further.
Qed.

Lemma stop_loop_ok (color label : string) (stops : list Stops.row)
    (stop_group : list Feature) :
  (forall s, s ∈ stops ->
     validate_location (Stops.stop_lat s, Stops.stop_lon s) = None) ->
  stop_loop validate_location color label stops stop_group
  = Ok (stop_group ++ map (stop_marker color label) stops).
Proof.
  revert stop_group.
  induction stops as [|s rest IH]; intros stop_group Hv; simpl.
  - now rewrite app_nil_r.
  - unfold new_CircleMarker. rewrite (Hv s (list_elem_of_here _ _)).
    cbn [mbind result_bind]. rewrite IH.
    + now rewrite <- app_assoc.
    + intros r Hr. apply Hv. now apply list_elem_of_further.
Qed.

(** *** The loop over the rows, when folium refuses a path *)

Lemma route_loop_refused (shapes : list Shapes.row) (color label : string)
    (rows : list TripRoutes.row) (plotted : gset Key)
    (route_group : list Feature) :
  (exists row, row ∈ rows
               /\ (TripRoutes.shape_id row ∉ plotted)
               /\ validate_locations
                    (shape_coords shapes (TripRoutes.shape_id row)) <> None) ->
  exists e,
    route_loop validate_locations shapes color label rows plotted route_group
    = Raise e.
Proof.
  revert plotted route_group.
  induction rows as [|r0 rest IH]; intros plotted route_group
    (row & Hin & Hout & Hbad).
  - inversion Hin.
  - simpl. destruct (decide (TripRoutes.shape_id r0 ∈ plotted)) as [Hp|Hp].
    + apply IH. exists row. split; [|now split].
      apply elem_of_cons in Hin as [->|Hin]; [contradiction | exact Hin].
    + unfold new_PolyLine.
      destruct (validate_locations
                  (shape_coords shapes (TripRoutes.shape_id r0)))
        as [e|] eqn:Hv; [now exists e|].
      cbn [mbind result_bind]. apply IH. exists row.
      assert (Hne : TripRoutes.shape_id row <> TripRoutes.shape_id r0).
      { intros Heq. rewrite Heq in Hbad. contradiction. }
      split; [|split; [set_solver | exact Hbad]].
      apply elem_of_cons in Hin as [->|Hin]; [contradiction | exact Hin].
Qed.

(** When the only exception folium raises on the paths of the rows is
    [e0], the loop raises [e0]. *)
Lemma route_loop_refused_with (shapes : list Shapes.row) (color label : string)
    (e0 : exn) (rows : list TripRoutes.row) (plotted : gset Key)
    (route_group : list Feature) :
  (forall row, row ∈ rows ->
     validate_locations (shape_coords shapes (TripRoutes.shape_id row)) = None
     \/ validate_locations (shape_coords shapes (TripRoutes.shape_id row))
        = Some e0) ->
  (exists row, row ∈ rows
               /\ (TripRoutes.shape_id row ∉ plotted)
               /\ validate_locations
                    (shape_coords shapes (TripRoutes.shape_id row)) = Some e0) ->
  route_loop validate_locations shapes color label rows plotted route_group
  = Raise e0.
Proof.
  revert plotted route_group.
  induction rows as [|r0 rest IH]; intros plotted route_group Hall
    (row & Hin & Hout & Hbad).
  - inversion Hin.
  - assert (Hrest : forall r, r ∈ rest ->
              validate_locations (shape_coords shapes (TripRoutes.shape_id r))
              = None
              \/ validate_locations
                   (shape_coords shapes (TripRoutes.shape_id r)) = Some e0).
    { intros r Hr. apply Hall. now apply list_elem_of_further. }
    simpl. destruct (decide (TripRoutes.shape_id r0 ∈ plotted)) as [Hp|Hp].
    + apply IH; [exact Hrest|]. exists row. split; [|now split].
      apply elem_of_cons in Hin as [->|Hin]; [contradiction | exact Hin].
    + unfold new_PolyLine.
      destruct (Hall r0 (list_elem_of_here _ _)) as [Hv|Hv]; rewrite Hv;
        [|reflexivity].
      cbn [mbind result_bind]. apply IH; [exact Hrest|]. exists row.
      assert (Hne : TripRoutes.shape_id row <> TripRoutes.shape_id r0).
      { intros Heq. rewrite Heq, Hv in Hbad. discriminate Hbad. }
      split; [|split; [set_solver | exact Hbad]].
      apply elem_of_cons in Hin as [->|Hin]; [contradiction | exact Hin].
Qed.

(** *** The body of [plot_gtfs] on a readable, accepted feed *)

Lemma plot_gtfs_body_ok (folder color label : string) (m : Map)
    (shapes : list Shapes.row) (trips : list Trips.row)
    (routes : list Routes.row) (stops : list Stops.row)
    (trip_routes : list TripRoutes.row) :
  shapes_txt (fs folder) = Ok shapes ->
  trips_txt (fs folder) = Ok trips ->
  routes_txt (fs folder) = Ok routes ->
  stops_txt (fs folder) = Ok stops ->
  merge_trip_routes trips routes = Ok trip_routes ->
  accepted validate_locations validate_location show_stops shapes trips stops ->
  plot_gtfs_body validate_locations validate_location fs show_stops
                 folder color label m
  = Ok (m ++ FeatureGroup (label +:+ " Routes") true
               (map (route_line shapes color label)
                    (first_rows trip_routes ∅))
          :: (if show_stops
              then [FeatureGroup (label +:+ " Stops") true
                      (map (stop_marker color label) stops)]
              else [])).
Proof.
  intros Hs Ht Hr Hp Hm [Hlines Hmarkers].
  unfold plot_gtfs_body. rewrite Hs, Ht, Hr, Hp. cbn [mbind result_bind].
  rewrite Hm. cbn [mbind result_bind].
  rewrite route_loop_ok.
  - cbn [mbind result_bind app]. destruct show_stops.
    + rewrite stop_loop_ok by (now apply Hmarkers).
      cbn [mbind result_bind app]. unfold add_to.
      now rewrite <- app_assoc.
    + reflexivity.
  - intros row Hrow.
    assert (Hid : TripRoutes.shape_id row
                  ∈ map TripRoutes.shape_id trip_routes).
    { apply list_elem_of_In, in_map, list_elem_of_In, Hrow. }
    apply (merge_trip_routes_ids trips routes trip_routes _ Hm) in Hid.
    apply list_elem_of_In, in_map_iff in Hid as (t & Heq & Hin).
    rewrite <- Heq. apply Hlines. now apply list_elem_of_In.
Qed.

Lemma plot_gtfs_ok (folder color label : string) (m : Map)
    (errors : list string)
    (shapes : list Shapes.row) (trips : list Trips.row)
    (routes : list Routes.row) (stops : list Stops.row)
    (trip_routes : list TripRoutes.row) :
  shapes_txt (fs folder) = Ok shapes ->
  trips_txt (fs folder) = Ok trips ->
  routes_txt (fs folder) = Ok routes ->
  stops_txt (fs folder) = Ok stops ->
  merge_trip_routes trips routes = Ok trip_routes ->
  accepted validate_locations validate_location show_stops shapes trips stops ->
  plot_gtfs validate_locations validate_location fs show_stops
            folder color label (m, errors)
  = (m ++ FeatureGroup (label +:+ " Routes") true
            (map (route_line shapes color label)
                 (first_rows trip_routes ∅))
       :: (if show_stops
           then [FeatureGroup (label +:+ " Stops") true
                   (map (stop_marker color label) stops)]
           else []),
     errors).
Proof.
  intros Hs Ht Hr Hp Hm Hacc. unfold plot_gtfs.
  now rewrite (plot_gtfs_body_ok folder color label m _ _ _ _ _
                 Hs Ht Hr Hp Hm Hacc).
Qed.

(** *** A feed with a path that folium refuses *)

Lemma plot_gtfs_refused (folder color label : string) (m : Map)
    (errors : list string)
    (shapes : list Shapes.row) (trips : list Trips.row)
    (routes : list Routes.row) (stops : list Stops.row)
    (t : Trips.row) (e0 : exn) :
  shapes_txt (fs folder) = Ok shapes ->
  trips_txt (fs folder) = Ok trips ->
  routes_txt (fs folder) = Ok routes ->
  stops_txt (fs folder) = Ok stops ->
  t ∈ trips ->
  validate_locations (shape_coords shapes (Trips.shape_id t)) = Some e0 ->
  exists e,
    plot_gtfs validate_locations validate_location fs show_stops
              folder color label (m, errors)
    = (m, errors ++ [failure_message label e]).
Proof.
  intros Hs Ht Hr Hp Hin Hbad.
  unfold plot_gtfs, plot_gtfs_body.
  rewrite Hs, Ht, Hr, Hp. cbn [mbind result_bind].
  destruct (merge_trip_routes trips routes) as [trip_routes|e] eqn:Hm;
    [|now exists e].
  cbn [mbind result_bind].
  assert (Hid : Trips.shape_id t ∈ map TripRoutes.shape_id trip_routes).
  { apply (merge_trip_routes_ids trips routes trip_routes _ Hm).
    apply list_elem_of_In, in_map. now apply list_elem_of_In. }
  apply list_elem_of_In, in_map_iff in Hid as (row & Hrow & Hrin).
  destruct (route_loop_refused shapes color label trip_routes ∅ [])
    as [e He].
  { exists row. split; [now apply list_elem_of_In|].
    split; [set_solver|]. rewrite Hrow, Hbad. discriminate. }
  exists e. rewrite He. reflexivity.
Qed.

(** A referenced path without points, when folium refuses an empty list
    of locations and accepts the other paths: the mode fails with folium's
    exception. *)
Lemma plot_gtfs_missing_geometry (folder color label : string) (m : Map)
    (errors : list string)
    (shapes : list Shapes.row) (trips : list Trips.row)
    (routes : list Routes.row) (stops : list Stops.row)
    (trip_routes : list TripRoutes.row) (sid : Key) (e0 : exn) :
  shapes_txt (fs folder) = Ok shapes ->
  trips_txt (fs folder) = Ok trips ->
  routes_txt (fs folder) = Ok routes ->
  stops_txt (fs folder) = Ok stops ->
  merge_trip_routes trips routes = Ok trip_routes ->
  sid ∈ referenced_paths trips ->
  (forall p, p ∈ shapes -> Shapes.shape_id p <> sid) ->
  validate_locations [] = Some e0 ->
  (forall t, t ∈ trips ->
     has_points shapes (Trips.shape_id t) = true ->
     validate_locations (shape_coords shapes (Trips.shape_id t)) = None) ->
  plot_gtfs validate_locations validate_location fs show_stops
            folder color label (m, errors)
  = (m, errors ++ [failure_message label e0]).
Proof.
  intros Hs Ht Hr Hp Hm Hsid Hmissing Hempty Hothers.
  unfold plot_gtfs, plot_gtfs_body.
  rewrite Hs, Ht, Hr, Hp. cbn [mbind result_bind].
  rewrite Hm. cbn [mbind result_bind].
  rewrite (route_loop_refused_with shapes color label e0); [reflexivity| |].
  - intros row Hrow.
    assert (Hid : TripRoutes.shape_id row
                  ∈ map TripRoutes.shape_id trip_routes).
    { apply list_elem_of_In, in_map, list_elem_of_In, Hrow. }
    apply (merge_trip_routes_ids trips routes trip_routes _ Hm) in Hid.
    apply list_elem_of_In, in_map_iff in Hid as (t & Heq & Hin).
    rewrite <- Heq.
    destruct (has_points shapes (Trips.shape_id t)) eqn:Hpts.
    + left. apply Hothers; [now apply list_elem_of_In | exact Hpts].
    + right. pose proof (proj1 (has_points_false _ _) Hpts) as Hno.
      now rewrite (shape_coords_missing shapes _ Hno).
  - apply (elem_of_plotted_order trips routes trip_routes sid Hm) in Hsid.
    unfold plotted_order in Hsid.
    apply list_elem_of_In, in_map_iff in Hsid as (row & Hrow & Hrin).
    exists row. split; [|split; [set_solver|]].
    + apply list_elem_of_In in Hrin.
      apply first_rows_first in Hrin as (pre & post & -> & _).
      apply elem_of_app. right. apply list_elem_of_here.
    + now rewrite Hrow, (shape_coords_missing shapes sid Hmissing).
Qed.

(** *** All or nothing *)

(** Whatever the feed holds, the body of [plot_gtfs] either raises or
    appends the route layer, followed by the stop layer when stops are
    shown; what it appends does not depend on the map. *)
Lemma plot_gtfs_body_appends (folder color label : string) :
  exists r : result (list Feature * list Feature),
    forall m,
      plot_gtfs_body validate_locations validate_location fs show_stops
                     folder color label m
      = match r with
        | Ok (lines, markers) =>
            Ok (m ++ FeatureGroup (label +:+ " Routes") true lines
                  :: (if show_stops
                      then [FeatureGroup (label +:+ " Stops") true markers]
                      else []))
        | Raise e => Raise e
        end.
Proof.
  unfold plot_gtfs_body.
  destruct (shapes_txt (fs folder)) as [shapes|e];
    [|exists (Raise e); reflexivity].
  destruct (trips_txt (fs folder)) as [trips|e];
    [|exists (Raise e); reflexivity].
  destruct (routes_txt (fs folder)) as [routes|e];
    [|exists (Raise e); reflexivity].
  destruct (stops_txt (fs folder)) as [stops|e];
    [|exists (Raise e); reflexivity].
  cbn [mbind result_bind].
  destruct (merge_trip_routes trips routes) as [trip_routes|e];
    [|exists (Raise e); reflexivity].
  cbn [mbind result_bind].
  destruct (route_loop validate_locations shapes color label
              trip_routes ∅ []) as [lines|e];
    [|exists (Raise e); reflexivity].
  cbn [mbind result_bind]. destruct show_stops.
  - destruct (stop_loop validate_location color label stops [])
      as [markers|e]; [|exists (Raise e); reflexivity].
    exists (Ok (lines, markers)). intros m. cbn [mbind result_bind].
    unfold add_to. now rewrite <- app_assoc.
  - exists (Ok (lines, [])). intros m. reflexivity.
Qed.

Lemma plot_gtfs_appends (folder color label : string) :
  exists added new,
    (forall m errors,
       plot_gtfs validate_locations validate_location fs show_stops
                 folder color label (m, errors)
       = (m ++ added, errors ++ new))
    /\ ((added = [] /\ exists e, new = [failure_message label e])
        \/ (new = []
            /\ exists lines markers,
                 added = FeatureGroup (label +:+ " Routes") true lines
                           :: (if show_stops
                               then [FeatureGroup (label +:+ " Stops") true
                                                  markers]
                               else []))).
Proof.
  destruct (plot_gtfs_body_appends folder color label)
    as [[[lines markers]|e] Hbody].
  - exists (FeatureGroup (label +:+ " Routes") true lines
              :: (if show_stops
                  then [FeatureGroup (label +:+ " Stops") true markers]
                  else [])), [].
    split.
    + intros m errors. unfold plot_gtfs. rewrite Hbody.
      now rewrite (app_nil_r errors).
    + right. split; [reflexivity|]. now exists lines, markers.
  - exists [], [failure_message label e]. split.
    + intros m errors. unfold plot_gtfs. rewrite Hbody.
      now rewrite (app_nil_r m).
    + left. split; [reflexivity|]. now exists e.
Qed.

(** *** A feed with a missing table *)

Lemma plot_gtfs_body_read_failure (folder color label : string) (m : Map)
    (e : exn) :
  read_failure (fs folder) = Some e ->
  plot_gtfs_body validate_locations validate_location fs show_stops
                 folder color label m = Raise e.
Proof.
  unfold read_failure, plot_gtfs_body. intros H.
  destruct (shapes_txt (fs folder)); [|now injection H as ->].
  destruct (trips_txt (fs folder)); [|now injection H as ->].
  destruct (routes_txt (fs folder)); [|now injection H as ->].
  destruct (stops_txt (fs folder)); [discriminate H | now injection H as ->].
Qed.

(** [plot_gtfs] only appends to the errors shown so far, and what it does
    to the map does not depend on them. *)
Lemma plot_gtfs_errors (folder color label : string) (m : Map) :
  exists m' new, forall errors,
    plot_gtfs validate_locations validate_location fs show_stops
              folder color label (m, errors) = (m', errors ++ new).
Proof.
  unfold plot_gtfs.
  destruct (plot_gtfs_body _ _ _ _ folder color label m) as [m'|e].
  - exists m', []. intros errors. now rewrite app_nil_r.
  - eexists m, _. intros errors. reflexivity.
Qed.

Lemma plot_modes_errors (modes : list Mode) (m : Map) :
  exists m' new, forall errors,
    plot_modes validate_locations validate_location fs show_stops
               modes (m, errors) = (m', errors ++ new).
Proof.
  revert m. induction modes as [|mode rest IH]; intros m.
  - exists m, []. intros errors. simpl. now rewrite app_nil_r.
  - destruct (plot_gtfs_errors (folder (GTFS_FEEDS mode))
                (color (GTFS_FEEDS mode)) (mode_label mode) m)
      as (m1 & n1 & H1).
    destruct (IH m1) as (m2 & n2 & H2).
    exists m2, (n1 ++ n2). intros errors.
    unfold plot_modes in *. cbn [foldl]. rewrite H1, H2.
    now rewrite <- app_assoc.
Qed.
End TransitProperties.

(** The rows of [trip_routes] for the complete feed: every trip has its
    route, the names stay integers. *)
Example merge_complete_feed :
  merge_trip_routes complete_trips complete_routes = Ok complete_trip_routes.
Proof. reflexivity. Qed.

(** In the small feed the trip on route "r2" has no route: its name is
    missing, and the names of the other rows become floats. *)
Example merge_small_feed :
  merge_trip_routes small_trips small_routes
  = Ok [ {| TripRoutes.route_id := KStr "r1"; TripRoutes.shape_id := KStr "s1";
            TripRoutes.route_short_name := CFloat 22 |};
         {| TripRoutes.route_id := KStr "r1"; TripRoutes.shape_id := KStr "s1";
            TripRoutes.route_short_name := CFloat 22 |};
         {| TripRoutes.route_id := KStr "r2"; TripRoutes.shape_id := KStr "s2";
            TripRoutes.route_short_name := CNaN |} ].
Proof. reflexivity. Qed.

(** Route ids read as integers from [trips.txt] and as text from
    [routes.txt] cannot be merged. *)
Example merge_mixed_keys :
  merge_trip_routes
    [ {| Trips.route_id := KInt 1; Trips.shape_id := KStr "s1" |} ]
    [ {| Routes.route_id := KStr "1A"; Routes.route_short_name := CInt 22 |} ]
  = Raise (ValueError "You are trying to merge on int64 and object columns for key 'route_id'. If you wish to proceed you should use pd.concat").
Proof. reflexivity. Qed.

Lemma accepted_complete_feed (show_stops : bool) :
  accepted refuse_empty accept_location show_stops
           complete_shapes complete_trips complete_stops.
Proof.
  split.
  - intros t Ht. unfold complete_trips in Ht.
    repeat (apply elem_of_cons in Ht as [->|Ht]; [reflexivity|]).
    inversion Ht.
  - intros _ s _. reflexivity.
Qed.

(** *** Deduplication of paths *)

(** The complete feed: two trips share path "s1"; each of the two paths is
    drawn once, through its points sorted by sequence. *)
Example plot_complete_feed :
  plot_gtfs refuse_empty accept_location light_rail_complete true
            "light_rail" "purple" "Light Rail" ([], [])
  = ([FeatureGroup "Light Rail Routes" true
        [PolyLine [(Fin 40, Fin (-77)); (Fin 39, Fin (-76))] "purple" 2
                  (7 # 10) "Light Rail Route 22";
         PolyLine [(Fin 38, Fin (-75)); (Fin 37, Fin (-74))] "purple" 2
                  (7 # 10) "Light Rail Route 7"];
      FeatureGroup "Light Rail Stops" true
        [CircleMarker (Fin 39, Fin (-76)) 2 "purple" true (6 # 10)
                      "Light Rail Stop: Penn Station"]],
     []).
Proof. reflexivity. Qed.

(** In the small feed path "s2" has no points: folium refuses its empty
    list of locations, and the whole mode fails; path "s1" is not drawn
    either. *)
Example missing_geometry_refused :
  plot_gtfs refuse_empty accept_location light_rail_only true
            "light_rail" "purple" "Light Rail" ([], [])
  = ([], ["Failed to load Light Rail data: Locations is empty."]).
Proof. reflexivity. Qed.

Lemma path_s1_has_points :
  KStr "s1" ∈ paths_with_points small_shapes small_trips.
Proof.
  unfold paths_with_points, referenced_paths.
  apply elem_of_filter. split; [reflexivity|].
  apply elem_of_list_to_set. apply list_elem_of_here.
Qed.

(** C6, as stated, fails: in the small feed the trips refer to path "s1",
    whose points are in [shapes.txt], and to path "s2", which has none;
    the empty line of "s2" is refused, the mode fails, and no line is
    drawn for "s1" either: fewer lines than paths with geometry. *)
Lemma path_with_points_not_drawn :
  ~ draws_each_path small_shapes small_trips
      (fst (plot_gtfs refuse_empty accept_location light_rail_only true
                      "light_rail" "purple" "Light Rail" ([], []))).
Proof.
  intros [_ H].
  change (fst (plot_gtfs refuse_empty accept_location light_rail_only true
                         "light_rail" "purple" "Light Rail" ([], [])))
    with (@nil Layer) in H.
  assert (Hpos : size (paths_with_points small_shapes small_trips) <> 0%nat).
  { apply size_non_empty_iff. intros Hempty.
    pose proof path_s1_has_points as Hin. rewrite Hempty in Hin.
    now apply not_elem_of_empty in Hin. }
  simpl in H. lia.
Qed.

(** C6 (amended): when the four tables of a mode are read, the merge of
    trips and routes does not raise and folium accepts the features built
    from them, the layers the mode adds hold exactly one line feature per
    distinct path id among the mode's trips, in the order in which the ids
    are first met, each drawn through the points of its path in ascending
    sequence: a path id shared by several trips is drawn once and none is
    dropped.  When a path id among the trips has no points and folium
    refuses an empty list of locations, the mode adds no layer at all (no
    line is drawn, also for the paths that have points) and one error is
    shown. *)
Theorem one_line_per_plotted_path
    (validate_locations : list LatLon -> option exn)
    (validate_location : LatLon -> option exn)
    (fs : FileSystem) (show_stops : bool)
    (folder color label : string) (m : Map) (errors : list string)
    (shapes : list Shapes.row) (trips : list Trips.row)
    (routes : list Routes.row) (stops : list Stops.row) :
  shapes_txt (fs folder) = Ok shapes ->
  trips_txt (fs folder) = Ok trips ->
  routes_txt (fs folder) = Ok routes ->
  stops_txt (fs folder) = Ok stops ->
  (forall trip_routes,
     merge_trip_routes trips routes = Ok trip_routes ->
     accepted validate_locations validate_location show_stops
              shapes trips stops ->
     exists added,
       plot_gtfs validate_locations validate_location fs show_stops
                 folder color label (m, errors) = (m ++ added, errors)
       /\ Forall2 (fun sid line =>
                     is_PolyLine line = true
                     /\ drawn_through shapes sid (locations_of line))
                  (plotted_order trip_routes) (line_features added)
       /\ NoDup (plotted_order trip_routes)
       /\ (forall sid, sid ∈ plotted_order trip_routes
                       <-> sid ∈ referenced_paths trips)
       /\ length (line_features added) = size (referenced_paths trips))
  /\ (forall sid e0,
        sid ∈ referenced_paths trips ->
        has_points shapes sid = false ->
        validate_locations [] = Some e0 ->
        exists e,
          plot_gtfs validate_locations validate_location fs show_stops
                    folder color label (m, errors)
          = (m, errors ++ [failure_message label e])).
Proof.
  intros Hs Ht Hr Hp. split.
  - intros trip_routes Hm Hacc. eexists. split; [|split; [|split; [|split]]].
    + apply (plot_gtfs_ok _ _ _ _ folder color label m errors _ _ _ _ _
               Hs Ht Hr Hp Hm Hacc).
    + rewrite line_features_added. apply route_lines_drawn_through.
    + apply plotted_order_NoDup.
    + intros sid. apply (elem_of_plotted_order trips routes _ _ Hm).
    + rewrite line_features_added, length_map.
      rewrite <- (length_plotted_order trips routes trip_routes Hm).
      unfold plotted_order. now rewrite length_map.
  - intros sid e0 Hsid Hpts Hempty.
    unfold referenced_paths in Hsid. apply elem_of_list_to_set in Hsid.
    apply list_elem_of_In, in_map_iff in Hsid as (t & Hid & Hin).
    apply (plot_gtfs_refused validate_locations validate_location fs
             show_stops folder color label m errors shapes trips routes stops
             t e0 Hs Ht Hr Hp); [now apply list_elem_of_In|].
    pose proof (proj1 (has_points_false _ _) Hpts) as Hno.
    now rewrite Hid, (shape_coords_missing shapes sid Hno).
Qed.

Lemma one_line_per_plotted_path_complete_feed :
  exists added,
    plot_gtfs refuse_empty accept_location light_rail_complete true
              "light_rail" "purple" "Light Rail" ([], []) = ([] ++ added, [])
    /\ Forall2 (fun sid line =>
                  is_PolyLine line = true
                  /\ drawn_through complete_shapes sid (locations_of line))
               (plotted_order complete_trip_routes) (line_features added)
    /\ NoDup (plotted_order complete_trip_routes)
    /\ (forall sid, sid ∈ plotted_order complete_trip_routes
                    <-> sid ∈ referenced_paths complete_trips)
    /\ length (line_features added) = size (referenced_paths complete_trips).
Proof.
  destruct (one_line_per_plotted_path refuse_empty accept_location
              light_rail_complete true "light_rail" "purple" "Light Rail"
              [] [] complete_shapes complete_trips complete_routes
              complete_stops eq_refl eq_refl eq_refl eq_refl) as [H _].
  apply (H complete_trip_routes eq_refl (accepted_complete_feed true)).
Defined.

(** *** Paths without geometry *)

(** C10, as stated, fails: in the small feed path "s2" is referenced by a
    trip and has no rows in [shapes.txt]; no line with an empty coordinate
    list is emitted for it, and an error is raised. *)
Lemma missing_geometry_no_empty_line :
  ~ emits_empty_line ([], [])
      (plot_gtfs refuse_empty accept_location light_rail_only true
                 "light_rail" "purple" "Light Rail" ([], [])).
Proof. intros [H _]. discriminate H. Qed.

(** C10 (amended): when the four tables of a mode are read, a path id
    that the trips refer to has no rows in [shapes.txt], and folium refuses
    an empty list of locations, the coordinate list built for the path is
    empty and no line feature is emitted for it: the mode fails, the map is
    left as it was and one error naming the mode is shown.  When the merge
    of trips and routes does not raise and folium accepts the paths that
    have points, the error shown is folium's refusal of the empty list. *)
Theorem missing_geometry_fails_mode
    (validate_locations : list LatLon -> option exn)
    (validate_location : LatLon -> option exn)
    (fs : FileSystem) (show_stops : bool)
    (folder color label : string) (m : Map) (errors : list string)
    (shapes : list Shapes.row) (trips : list Trips.row)
    (routes : list Routes.row) (stops : list Stops.row)
    (sid : Key) (e0 : exn) :
  shapes_txt (fs folder) = Ok shapes ->
  trips_txt (fs folder) = Ok trips ->
  routes_txt (fs folder) = Ok routes ->
  stops_txt (fs folder) = Ok stops ->
  sid ∈ referenced_paths trips ->
  (forall p, p ∈ shapes -> Shapes.shape_id p <> sid) ->
  validate_locations [] = Some e0 ->
  shape_coords shapes sid = []
  /\ (exists e,
        plot_gtfs validate_locations validate_location fs show_stops
                  folder color label (m, errors)
        = (m, errors ++ [failure_message label e]))
  /\ (forall trip_routes,
        merge_trip_routes trips routes = Ok trip_routes ->
        (forall t, t ∈ trips ->
           has_points shapes (Trips.shape_id t) = true ->
           validate_locations (shape_coords shapes (Trips.shape_id t))
           = None) ->
        plot_gtfs validate_locations validate_location fs show_stops
                  folder color label (m, errors)
        = (m, errors ++ [failure_message label e0])).
Proof.
  intros Hs Ht Hr Hp Hsid Hmissing Hempty.
  split; [now apply shape_coords_missing|]. split.
  - pose proof Hsid as Hsid'.
    unfold referenced_paths in Hsid'. apply elem_of_list_to_set in Hsid'.
    apply list_elem_of_In, in_map_iff in Hsid' as (t & Hid & Hin).
    apply (plot_gtfs_refused validate_locations validate_location fs
             show_stops folder color label m errors shapes trips routes stops
             t e0 Hs Ht Hr Hp); [now apply list_elem_of_In|].
    now rewrite Hid, (shape_coords_missing shapes sid Hmissing).
  - intros trip_routes Hm Hothers.
    now apply (plot_gtfs_missing_geometry validate_locations validate_location
                 fs show_stops folder color label m errors shapes trips routes
                 stops trip_routes sid e0).
Qed.

Lemma missing_geometry_fails_mode_small_feed :
  shape_coords small_shapes (KStr "s2") = []
  /\ plot_gtfs refuse_empty accept_location light_rail_only true
               "light_rail" "purple" "Light Rail" ([], [])
     = ([], [] ++ [failure_message "Light Rail"
                     (ValueError "Locations is empty.")]).
Proof.
  destruct (missing_geometry_fails_mode refuse_empty accept_location
              light_rail_only true "light_rail" "purple" "Light Rail" [] []
              small_shapes small_trips small_routes small_stops
              (KStr "s2") (ValueError "Locations is empty.")
              eq_refl eq_refl eq_refl eq_refl) as (Hcoords & _ & Hfail).
  - unfold referenced_paths. apply elem_of_list_to_set.
    apply list_elem_of_further, list_elem_of_further, list_elem_of_here.
  - intros p Hp. unfold small_shapes in Hp.
    repeat (apply elem_of_cons in Hp as [->|Hp]; [discriminate|]).
    inversion Hp.
  - reflexivity.
  - split; [exact Hcoords|].
    apply (Hfail _ eq_refl). intros t Hin Hpts. unfold small_trips in Hin.
    repeat (apply elem_of_cons in Hin as [->|Hin];
            [first [reflexivity | discriminate Hpts]|]).
    inversion Hin.
Defined.

(** *** Route and stop layers *)

Lemma routes_name_not_stops (label : string) :
  label +:+ " Routes" <> label +:+ " Stops".
Proof.
  induction label as [|c label IH]; [discriminate|].
  intros H. apply IH. now injection H.
Qed.

(** C9: whatever the tables of a mode hold, the mode either fails (the
    map is left as it was and one error is shown) or adds to the map a
    layer named "<mode> Routes", shown by default; with show-stops false
    that is the only layer added (the stops layer is omitted), with
    show-stops true a second, separate layer named "<mode> Stops" follows,
    shown.  When the merge of trips and routes does not raise and folium
    accepts the features built, the mode does not fail, and its routes
    layer holds the route lines of the mode: one line per distinct path id
    among the trips, in the order in which the ids are first met, each
    drawn through the points of its path in the colour of the mode, with
    the route name of the first trip of the path in its tooltip; the stops
    layer holds one marker per stop. *)
Theorem routes_and_stops_layers
    (validate_locations : list LatLon -> option exn)
    (validate_location : LatLon -> option exn)
    (fs : FileSystem) (show_stops : bool)
    (folder color label : string) (m : Map) (errors : list string)
    (shapes : list Shapes.row) (trips : list Trips.row)
    (routes : list Routes.row) (stops : list Stops.row) :
  shapes_txt (fs folder) = Ok shapes ->
  trips_txt (fs folder) = Ok trips ->
  routes_txt (fs folder) = Ok routes ->
  stops_txt (fs folder) = Ok stops ->
  (forall trip_routes,
     merge_trip_routes trips routes = Ok trip_routes ->
     accepted validate_locations validate_location show_stops
              shapes trips stops ->
     exists (lines : list Feature),
       plot_gtfs validate_locations validate_location fs show_stops
                 folder color label (m, errors)
       = (m ++ FeatureGroup (label +:+ " Routes") true lines
            :: (if show_stops
                then [FeatureGroup (label +:+ " Stops") true
                        (map (stop_marker color label) stops)]
                else []),
          errors)
       /\ Forall2 (is_route_line shapes color label)
                  (first_rows trip_routes ∅) lines
       /\ NoDup (map TripRoutes.shape_id (first_rows trip_routes ∅))
       /\ (forall sid,
             sid ∈ map TripRoutes.shape_id (first_rows trip_routes ∅)
             <-> sid ∈ referenced_paths trips))
  /\ ((exists lines markers,
         plot_gtfs validate_locations validate_location fs show_stops
                   folder color label (m, errors)
         = (m ++ FeatureGroup (label +:+ " Routes") true lines
              :: (if show_stops
                  then [FeatureGroup (label +:+ " Stops") true markers]
                  else []),
            errors))
      \/ (exists e,
            plot_gtfs validate_locations validate_location fs show_stops
                      folder color label (m, errors)
            = (m, errors ++ [failure_message label e])))
  /\ label +:+ " Routes" <> label +:+ " Stops".
Proof.
  intros Hs Ht Hr Hp. split; [|split].
  - intros trip_routes Hm Hacc. eexists. split; [|split; [|split]].
    + apply (plot_gtfs_ok _ _ _ _ folder color label m errors _ _ _ _ _
               Hs Ht Hr Hp Hm Hacc).
    + apply route_lines_are_route_lines.
    + apply first_rows_NoDup.
    + intros sid. apply (elem_of_plotted_order trips routes _ _ Hm).
  - destruct (plot_gtfs_appends validate_locations validate_location fs
                show_stops folder color label)
      as (added & new & Hplot & [[-> [e ->]] | [-> (lines & markers & ->)]]).
    + right. exists e. rewrite Hplot. now rewrite app_nil_r.
    + left. exists lines, markers. rewrite Hplot. now rewrite app_nil_r.
  - apply routes_name_not_stops.
Qed.

Lemma routes_and_stops_layers_hidden_stops :
  exists (lines : list Feature),
    plot_gtfs refuse_empty accept_location light_rail_complete false
              "light_rail" "purple" "Light Rail" ([], [])
    = ([] ++ FeatureGroup ("Light Rail" +:+ " Routes") true lines
          :: (if false
              then [FeatureGroup ("Light Rail" +:+ " Stops") true
                      (map (stop_marker "purple" "Light Rail") complete_stops)]
              else []),
       [])
    /\ Forall2 (is_route_line complete_shapes "purple" "Light Rail")
               (first_rows complete_trip_routes ∅) lines
    /\ NoDup (map TripRoutes.shape_id (first_rows complete_trip_routes ∅))
    /\ (forall sid,
          sid ∈ map TripRoutes.shape_id (first_rows complete_trip_routes ∅)
          <-> sid ∈ referenced_paths complete_trips).
Proof.
  destruct (routes_and_stops_layers refuse_empty accept_location
              light_rail_complete false "light_rail" "purple" "Light Rail"
              [] [] complete_shapes complete_trips complete_routes
              complete_stops eq_refl eq_refl eq_refl eq_refl) as [H _].
  apply (H complete_trip_routes eq_refl (accepted_complete_feed false)).
Defined.

(** With show-stops false the stops of the complete feed are not drawn. *)
Example plot_complete_feed_hidden_stops :
  plot_gtfs refuse_empty accept_location light_rail_complete false
            "light_rail" "purple" "Light Rail" ([], [])
  = ([FeatureGroup "Light Rail Routes" true
        [PolyLine [(Fin 40, Fin (-77)); (Fin 39, Fin (-76))] "purple" 2
                  (7 # 10) "Light Rail Route 22";
         PolyLine [(Fin 38, Fin (-75)); (Fin 37, Fin (-74))] "purple" 2
                  (7 # 10) "Light Rail Route 7"]],
     []).
Proof. reflexivity. Qed.

(** *** Failure of one mode *)

(** C7: if one of the four tables of a mode is missing or unreadable,
    [plot_gtfs] leaves the map as it was and shows one error that names the
    mode; and in the loop over the selected modes, the map after all modes
    and the errors of the other modes are what they are when the failing
    mode is not selected. *)
Theorem missing_table_isolates_mode
    (validate_locations : list LatLon -> option exn)
    (validate_location : LatLon -> option exn)
    (fs : FileSystem) (show_stops : bool) (mode : Mode) :
  (exists e, shapes_txt (fs (folder (GTFS_FEEDS mode))) = Raise e)
  \/ (exists e, trips_txt (fs (folder (GTFS_FEEDS mode))) = Raise e)
  \/ (exists e, routes_txt (fs (folder (GTFS_FEEDS mode))) = Raise e)
  \/ (exists e, stops_txt (fs (folder (GTFS_FEEDS mode))) = Raise e) ->
  exists e,
    (forall m errors,
       plot_gtfs validate_locations validate_location fs show_stops
         (folder (GTFS_FEEDS mode)) (color (GTFS_FEEDS mode))
         (mode_label mode) (m, errors)
       = (m, errors ++ [failure_message (mode_label mode) e]))
    /\ (forall before after m errors,
          exists m' errors1 errors2,
            plot_modes validate_locations validate_location fs show_stops
              (before ++ mode :: after) (m, errors)
            = (m', errors1 ++ failure_message (mode_label mode) e :: errors2)
            /\ plot_modes validate_locations validate_location fs show_stops
                 (before ++ after) (m, errors)
               = (m', errors1 ++ errors2)).
Proof.
  intros Hmiss.
  assert (Hfail : exists e,
             read_failure (fs (folder (GTFS_FEEDS mode))) = Some e).
  { unfold read_failure.
    destruct Hmiss as [[e H]|[[e H]|[[e H]|[e H]]]]; rewrite H;
      repeat match goal with
             | |- context [match ?x with Ok _ => _ | Raise _ => _ end] =>
                 destruct x
             end; eauto. }
  destruct Hfail as [e He]. exists e.
  assert (Hplot : forall m errors,
             plot_gtfs validate_locations validate_location fs show_stops
               (folder (GTFS_FEEDS mode)) (color (GTFS_FEEDS mode))
               (mode_label mode) (m, errors)
             = (m, errors ++ [failure_message (mode_label mode) e])).
  { intros m errors. unfold plot_gtfs.
    now rewrite (plot_gtfs_body_read_failure _ _ _ _ _ _ _ m e He). }
  split; [exact Hplot|].
  intros before after m errors.
  destruct (plot_modes_errors validate_locations validate_location fs
              show_stops before m) as (m1 & n1 & H1).
  destruct (plot_modes_errors validate_locations validate_location fs
              show_stops after m1) as (m2 & n2 & H2).
  exists m2, (errors ++ n1), n2.
  unfold plot_modes in *. rewrite !foldl_app, H1. cbn [foldl].
  rewrite Hplot, !H2. split; [|reflexivity].
  now rewrite <- app_assoc.
Qed.

Lemma missing_table_isolates_mode_local_bus :
  exists e,
    (forall m errors,
       plot_gtfs accept_locations accept_location light_rail_only true
         (folder (GTFS_FEEDS LocalBus)) (color (GTFS_FEEDS LocalBus))
         (mode_label LocalBus) (m, errors)
       = (m, errors ++ [failure_message (mode_label LocalBus) e]))
    /\ (forall before after m errors,
          exists m' errors1 errors2,
            plot_modes accept_locations accept_location light_rail_only true
              (before ++ LocalBus :: after) (m, errors)
            = (m', errors1 ++ failure_message (mode_label LocalBus) e
                     :: errors2)
            /\ plot_modes accept_locations accept_location light_rail_only
                 true (before ++ after) (m, errors)
               = (m', errors1 ++ errors2)).
Proof.
  apply (missing_table_isolates_mode accept_locations accept_location
           light_rail_only true LocalBus).
  left. exists (FileNotFoundError "shapes.txt"). reflexivity.
Defined.

(** The local bus folder is missing, the light rail feed is drawn. *)
Example plot_modes_one_missing :
  plot_modes refuse_empty accept_location light_rail_complete false
             [LocalBus; LightRail] ([], [])
  = ([FeatureGroup "Light Rail Routes" true
        [PolyLine [(Fin 40, Fin (-77)); (Fin 39, Fin (-76))] "purple" 2
                  (7 # 10) "Light Rail Route 22";
         PolyLine [(Fin 38, Fin (-75)); (Fin 37, Fin (-74))] "purple" 2
                  (7 # 10) "Light Rail Route 7"]],
     ["Failed to load Local Bus data: shapes.txt"]).
Proof. reflexivity. Qed.

(** ** The script without a density layer *)

(** C4 (the code departs from it): when [population_df] or [shapes_gdf] is
    [None], [merged] is [None] and line 140 subscripts it outside any
    guard; the script ends there with a [TypeError], before any transit
    layer is built, whatever the feeds hold. *)
Theorem script_aborts_without_merged
    (rnd : Q -> Q) (area_3857 : Geometry -> float64)
    (validate_locations : list LatLon -> option exn)
    (validate_location : LatLon -> option exn)
    (population_df : option (list PopRow))
    (shapes_gdf : option (list ShapeRow)) (fs : FileSystem)
    (selected_modes : list Mode) (show_stops show_population : bool) :
  script rnd area_3857 validate_locations validate_location
         None shapes_gdf fs selected_modes show_stops show_population
  = Raise (TypeError "'NoneType' object is not subscriptable")
  /\ script rnd area_3857 validate_locations validate_location
            population_df None fs selected_modes show_stops show_population
     = Raise (TypeError "'NoneType' object is not subscriptable").
Proof. split; [reflexivity | destruct population_df; reflexivity]. Qed.

(** The population request failed, the polygons and the light rail feed
    are there: nothing is rendered, although the transit loop alone would
    draw the feed. *)
Example script_without_population :
  script exact area_by_rings refuse_empty accept_location
         None (Some shp_square) light_rail_complete [LightRail] false true
  = Raise (TypeError "'NoneType' object is not subscriptable")
  /\ fst (plot_modes refuse_empty accept_location light_rail_complete false
                     [LightRail] ([], []))
     = [FeatureGroup "Light Rail Routes" true
          [PolyLine [(Fin 40, Fin (-77)); (Fin 39, Fin (-76))] "purple" 2
                    (7 # 10) "Light Rail Route 22";
           PolyLine [(Fin 38, Fin (-75)); (Fin 37, Fin (-74))] "purple" 2
                    (7 # 10) "Light Rail Route 7"]].
Proof. split; reflexivity. Qed.

(** With both datasets loaded the script renders the density layer, the
    transit layers and the layer control. *)
Example script_with_population :
  exists u,
    script exact area_by_rings refuse_empty accept_location
           (Some pop_100) (Some shp_square) light_rail_complete [LightRail]
           false true
    = Ok ([Choropleth [u] "Population Density"
             [0; 100; 200; 300; 400; 500; 600; 700; 800; 900; 1000;
              1100; 1200; 1300; 1400; 1500; 1600; 1700; 1800; 1900]
             "Population Density (people/km²)";
           FeatureGroup "Light Rail Routes" true
             [PolyLine [(Fin 40, Fin (-77)); (Fin 39, Fin (-76))] "purple" 2
                       (7 # 10) "Light Rail Route 22";
              PolyLine [(Fin 38, Fin (-75)); (Fin 37, Fin (-74))] "purple" 2
                       (7 # 10) "Light Rail Route 7"];
           LayerControl false],
          []).
Proof. eexists. reflexivity. Qed.

(** * Further properties of the code *)

(** ** Keys *)

(** X1: the key of a well-formed tabular record is twelve decimal digits,
    and it determines the four codes: two well-formed records with the
    same key have the same state, county, tract and block group. *)
Theorem tabular_GEOID_injective (r1 r2 : CensusRow) :
  well_formed r1 = true -> well_formed r2 = true ->
  fixed_width 12 (tabular_GEOID r1) = true
  /\ (tabular_GEOID r1 = tabular_GEOID r2 ->
      state r1 = state r2 /\ county r1 = county r2
      /\ tract r1 = tract r2 /\ block_group r1 = block_group r2).
Proof.
  intros H1 H2.
  apply well_formed_codes in H1 as (Hs1 & Hc1 & Ht1 & Hb1).
  apply well_formed_codes in H2 as (Hs2 & Hc2 & Ht2 & Hb2).
  apply fixed_width_length in Hs1 as [? ?], Hc1 as [? ?], Ht1 as [? ?],
    Hb1 as [? ?], Hs2 as [? ?], Hc2 as [? ?], Ht2 as [? ?], Hb2 as [? ?].
  rewrite !tabular_GEOID_code. split.
  - unfold fixed_width. rewrite !length_append, !all_digits_append.
    apply andb_true_intro. split.
    + apply Nat.eqb_eq. lia.
    + repeat (apply andb_true_intro; split); assumption.
  - intros Hkey.
    apply append_inj_length in Hkey as [Hs Hkey]; [|congruence].
    apply append_inj_length in Hkey as [Hc Hkey]; [|congruence].
    apply append_inj_length in Hkey as [Ht Hb]; [|congruence].
    now repeat split.
Qed.

Lemma tabular_GEOID_injective_maryland :
  fixed_width 12
    (tabular_GEOID {| NAME := "Block Group 1"; population_raw := Some "100";
                      state := "24"; county := "001"; tract := "000100";
                      block_group := "1" |}) = true
  /\ (tabular_GEOID {| NAME := "Block Group 1"; population_raw := Some "100";
                       state := "24"; county := "001"; tract := "000100";
                       block_group := "1" |}
      = tabular_GEOID {| NAME := "BG 1"; population_raw := None;
                         state := "24"; county := "001"; tract := "000100";
                         block_group := "1" |} ->
      "24" = "24" /\ "001" = "001" /\ "000100" = "000100" /\ "1" = "1").
Proof.
  apply (tabular_GEOID_injective
           {| NAME := "Block Group 1"; population_raw := Some "100";
              state := "24"; county := "001"; tract := "000100";
              block_group := "1" |}
           {| NAME := "BG 1"; population_raw := None;
              state := "24"; county := "001"; tract := "000100";
              block_group := "1" |}); reflexivity.
Defined.

(** Without the fixed widths the concatenation does not determine the
    codes. *)
Example tabular_GEOID_ambiguous :
  tabular_GEOID {| NAME := ""; population_raw := None; state := "2";
                   county := "4001"; tract := "000100"; block_group := "1" |}
  = tabular_GEOID {| NAME := ""; population_raw := None; state := "24";
                     county := "001"; tract := "000100"; block_group := "1" |}.
Proof. reflexivity. Qed.

(** X2: [astype(str)] on an integer key gives the decimal numeral of the
    key: reading the numeral gives the key back, so two different integer
    keys never get the same string. *)
Theorem astype_str_int_round_trip (z1 z2 : Z) :
  numeral_value (astype_str (CInt z1)) = Some z1
  /\ (astype_str (CInt z1) = astype_str (CInt z2) -> z1 = z2).
Proof.
  assert (Hrt : forall z, numeral_value (astype_str (CInt z)) = Some z).
  { intros z. unfold numeral_value, astype_str, py_str_int.
    rewrite NilZero.isi.
    - simpl. now rewrite DecimalZ.of_to.
    - destruct z; simpl; try discriminate.
      intros [= H]. now apply DecimalPos.Unsigned.to_uint_nonnil in H.
    - destruct z; simpl; try discriminate.
      intros [= H]. now apply DecimalPos.Unsigned.to_uint_nonnil in H. }
  split; [apply Hrt|].
  intros H. pose proof (Hrt z1) as H1. rewrite H, Hrt in H1.
  now injection H1.
Qed.

(** ** The population table *)

Lemma fetch_loop_closed (to_numeric : option string -> float64)
    (responses : list (string * (list CensusRow + string))) :
  fetch_loop to_numeric responses
  = (map (county_frame to_numeric) (succeeded responses),
     map (fun ce => "Failed to fetch data for county " +:+ fst ce +:+ ": "
                      +:+ snd ce) (failed responses)).
Proof.
  induction responses as [|[cty [rows|e]] rest IH]; [reflexivity| |];
    simpl; rewrite IH; reflexivity.
Qed.

Lemma succeeded_nil (responses : list (string * (list CensusRow + string))) :
  succeeded responses = []
  <-> Forall (fun r => exists e, snd r = inr e) responses.
Proof.
  induction responses as [|[cty [rows|e]] rest IH]; simpl.
  - split; [constructor | reflexivity].
  - split; [discriminate|]. intros H. inversion H as [|? ? [e He] _].
    discriminate He.
  - rewrite IH. split.
    + intros H. constructor; [now exists e | exact H].
    + intros H. now inversion H.
Qed.

(** X3: [fetch_population_data] returns [None] exactly when no request
    succeeded; otherwise its frame is the rows of the successful requests,
    county after county, each with its concatenated key; and it shows one
    warning per failed request, in order, naming the county. *)
Theorem fetch_population_data_frame (to_numeric : option string -> float64)
    (responses : list (string * (list CensusRow + string))) :
  fetch_population_data to_numeric responses
  = (match succeeded responses with
     | [] => None
     | frames => Some (concat (map (county_frame to_numeric) frames))
     end,
     map (fun ce => "Failed to fetch data for county " +:+ fst ce +:+ ": "
                      +:+ snd ce) (failed responses))
  /\ (fst (fetch_population_data to_numeric responses) = None
      <-> Forall (fun r => exists e, snd r = inr e) responses).
Proof.
  assert (Hclosed : fetch_population_data to_numeric responses
     = (match succeeded responses with
        | [] => None
        | frames => Some (concat (map (county_frame to_numeric) frames))
        end,
        map (fun ce => "Failed to fetch data for county " +:+ fst ce +:+ ": "
                         +:+ snd ce) (failed responses))).
  { unfold fetch_population_data. rewrite fetch_loop_closed.
    destruct (succeeded responses); reflexivity. }
  split; [exact Hclosed|]. rewrite Hclosed. simpl.
  pose proof (succeeded_nil responses) as Hs.
  rewrite <- Hs. destruct (succeeded responses); split; congruence.
Qed.

(** ** The join of polygons and population *)

Lemma join_row_key_geometry (pop : list PopRow) (key : string) (g : Geometry)
    (r : JoinedRow) :
  r ∈ join_row pop key g -> j_GEOID r = key /\ j_geometry r = g.
Proof.
  unfold join_row. destruct (List.filter _ pop) as [|p ps].
  - intros H. apply list_elem_of_singleton in H. now subst r.
  - intros H. apply list_elem_of_In, in_map_iff in H as (p' & <- & _).
    now split.
Qed.

Lemma join_row_nonempty (pop : list PopRow) (key : string) (g : Geometry) :
  exists r, r ∈ join_row pop key g.
Proof.
  unfold join_row. destruct (List.filter _ pop);
    eexists; apply list_elem_of_here.
Qed.

Lemma filter_key_none (pop : list PopRow) (key : string) :
  (forall p, p ∈ pop -> pop_GEOID p <> key) ->
  List.filter (fun p => String.eqb key (pop_GEOID p)) pop = [].
Proof.
  induction pop as [|p ps IH]; intros H; [reflexivity|]. simpl.
  destruct (String.eqb_spec key (pop_GEOID p)) as [Heq|Hne].
  - exfalso. apply (H p); [apply list_elem_of_here | now symmetry].
  - apply IH. intros q Hq. apply H. now apply list_elem_of_further.
Qed.

(** X4: the join is a left join: every polygon of [shapes_gdf] has a row
    in the result, with its key and geometry; a polygon whose key no row
    of [population_df] carries has a row with an absent population. *)
Theorem merge_left_keeps_polygons (shp : list ShapeRow) (pop : list PopRow)
    (s : ShapeRow) :
  s ∈ shp ->
  (exists r, r ∈ merge_left shp pop
             /\ j_GEOID r = astype_str (shp_GEOID s)
             /\ j_geometry r = shp_geometry s)
  /\ ((forall p, p ∈ pop -> pop_GEOID p <> astype_str (shp_GEOID s)) ->
      {| j_GEOID := astype_str (shp_GEOID s); j_geometry := shp_geometry s;
         j_population := NaN |} ∈ merge_left shp pop).
Proof.
  intros Hs. split.
  - destruct (join_row_nonempty pop (astype_str (shp_GEOID s)) (shp_geometry s))
      as [r Hr].
    exists r. split.
    + unfold merge_left. apply list_elem_of_In, in_flat_map. exists s.
      split; now apply list_elem_of_In.
    + now apply join_row_key_geometry in Hr.
  - intros Hno. unfold merge_left. apply list_elem_of_In, in_flat_map.
    exists s. split; [now apply list_elem_of_In|].
    unfold join_row. rewrite (filter_key_none pop _ Hno). now left.
Qed.

Lemma merge_left_keeps_polygons_square :
  (exists r, r ∈ merge_left shp_square []
             /\ j_GEOID r = "240010001001"
             /\ j_geometry r = square)
  /\ ((forall p : PopRow, p ∈ [] -> pop_GEOID p <> "240010001001") ->
      {| j_GEOID := "240010001001"; j_geometry := square;
         j_population := NaN |} ∈ merge_left shp_square []).
Proof.
  apply (merge_left_keeps_polygons shp_square []
           {| shp_GEOID := CStr "240010001001"; shp_geometry := square |}).
  apply list_elem_of_here.
Defined.

Lemma filter_key_NoDup (pop : list PopRow) (key : string) :
  NoDup (map pop_GEOID pop) ->
  (length (List.filter (fun p => String.eqb key (pop_GEOID p)) pop) <= 1)%nat.
Proof.
  induction pop as [|p ps IH]; intros Hnd; simpl; [lia|].
  apply NoDup_cons in Hnd as [Hp Hnd].
  destruct (String.eqb_spec key (pop_GEOID p)) as [Heq|Hne].
  - rewrite filter_key_none; [simpl; lia|].
    intros q Hq Hk. apply Hp. rewrite <- Heq, <- Hk.
    apply list_elem_of_In, in_map. now apply list_elem_of_In.
  - now apply IH.
Qed.

(** X5: when the keys of [population_df] are pairwise distinct, the join
    has exactly one row per polygon, in the order of [shapes_gdf]. *)
Theorem merge_left_one_row_per_polygon (shp : list ShapeRow)
    (pop : list PopRow) :
  NoDup (map pop_GEOID pop) ->
  map (fun r => (j_GEOID r, j_geometry r)) (merge_left shp pop)
  = map (fun s => (astype_str (shp_GEOID s), shp_geometry s)) shp.
Proof.
  intros Hnd. unfold merge_left.
  induction shp as [|s rest IH]; [reflexivity|]. simpl.
  rewrite map_app, IH. unfold join_row.
  pose proof (filter_key_NoDup pop (astype_str (shp_GEOID s)) Hnd) as Hlen.
  destruct (List.filter _ pop) as [|p [|p' ps]]; simpl in *;
    [reflexivity | reflexivity | lia].
Qed.

Lemma merge_left_one_row_per_polygon_square :
  map (fun r => (j_GEOID r, j_geometry r)) (merge_left shp_square pop_100)
  = map (fun s => (astype_str (shp_GEOID s), shp_geometry s)) shp_square.
Proof.
  apply merge_left_one_row_per_polygon.
  apply NoDup_cons. split; [apply not_elem_of_nil | apply NoDup_nil_2].
Defined.

(** A key that occurs twice in [population_df] doubles its polygon. *)
Example merge_left_duplicate_key :
  map j_population (merge_left shp_square (pop_100 ++ pop_100))
  = [Fin 100; Fin 100].
Proof. reflexivity. Qed.

(** X6: after the filter of line 130 the left join acts as an inner join:
    every retained unit has the key and geometry of a polygon of
    [shapes_gdf] and the key and population of a row of
    [population_df]. *)
Theorem retained_units_matched (rnd : Q -> Q)
    (area_3857 : Geometry -> float64) (pop : list PopRow)
    (shp : list ShapeRow) (rows : list GeoUnit) (u : GeoUnit) :
  merged rnd area_3857 (Some pop) (Some shp) = Some rows ->
  u ∈ rows ->
  exists s p,
    s ∈ shp /\ p ∈ pop
    /\ GEOID u = astype_str (shp_GEOID s) /\ pop_GEOID p = GEOID u
    /\ geometry u = shp_geometry s /\ population u = pop_population p.
Proof.
  intros Hm Hu.
  apply (elem_of_merged rnd area_3857 pop shp rows u Hm) in Hu
    as (r & Hr & Hp & ->).
  unfold merge_left in Hr. apply list_elem_of_In, in_flat_map in Hr
    as (s & Hs & Hr).
  unfold join_row in Hr.
  destruct (List.filter _ pop) as [|p0 ps] eqn:Hf.
  - destruct Hr as [<-|[]]. discriminate Hp.
  - apply in_map_iff in Hr as (p & <- & Hin).
    rewrite <- Hf in Hin. apply filter_In in Hin as [Hin Hk].
    apply String.eqb_eq in Hk.
    exists s, p. rewrite !list_elem_of_In. simpl. now repeat split.
Qed.

Lemma retained_units_matched_square :
  exists s p,
    s ∈ shp_square /\ p ∈ pop_100
    /\ "240010001001" = astype_str (shp_GEOID s)
    /\ pop_GEOID p = "240010001001"
    /\ square = shp_geometry s /\ Fin 100 = pop_population p.
Proof.
  apply (retained_units_matched exact area_by_rings pop_100 shp_square _
           (with_density exact area_by_rings
              {| j_GEOID := "240010001001"; j_geometry := square;
                 j_population := Fin 100 |}) eq_refl).
  apply list_elem_of_here.
Defined.

(** ** The maximum of a column *)

Lemma fle_notna (x y : float64) :
  fle x y = true -> notna x = true /\ notna y = true.
Proof. destruct x, y; simpl; intros H; try discriminate H; now split. Qed.

Lemma fle_refl (x : float64) : notna x = true -> fle x x = true.
Proof.
  destruct x; simpl; intros H; try reflexivity; try discriminate H.
  apply Qle_bool_iff, Qle_refl.
Qed.

Lemma fle_trans (x y z : float64) :
  fle x y = true -> fle y z = true -> fle x z = true.
Proof.
  destruct x, y, z; simpl; intros H1 H2;
    try reflexivity; try discriminate H1; try discriminate H2.
  apply Qle_bool_iff. apply Qle_bool_iff in H1, H2. now apply (Qle_trans _ q0).
Qed.

Lemma fle_total (x y : float64) :
  notna x = true -> notna y = true -> fle x y = false -> fle y x = true.
Proof.
  destruct x, y; simpl; intros Hx Hy H;
    try reflexivity; try discriminate.
  apply Qle_bool_iff. apply Qlt_le_weak, Qnot_le_lt. intros Hle.
  apply Qle_bool_iff in Hle. congruence.
Qed.

Lemma fold_fmax2 (l : list float64) (a : float64) :
  (notna (fold_left fmax2 l a) = false
   <-> notna a = false /\ forall x, x ∈ l -> notna x = false)
  /\ (fold_left fmax2 l a = a \/ fold_left fmax2 l a ∈ l)
  /\ (forall x, (x = a \/ x ∈ l) -> notna x = true ->
        fle x (fold_left fmax2 l a) = true).
Proof.
  revert a. induction l as [|y l IH]; intros a; simpl.
  - split; [|split].
    + split; [intros H; split; [exact H | intros x Hx; inversion Hx] | tauto].
    + now left.
    + intros x [->|Hx] Hn; [now apply fle_refl | inversion Hx].
  - destruct (IH (fmax2 a y)) as (Hna & Hin & Hub).
    assert (Hm : fmax2 a y = a \/ fmax2 a y = y).
    { unfold fmax2. destruct a, y; try (now left); try (now right);
        destruct (fle _ _); (now left) || (now right). }
    assert (Hmn : notna (fmax2 a y) = false
                  <-> notna a = false /\ notna y = false).
    { unfold fmax2. destruct a, y; simpl; try tauto;
        try (destruct (Qle_bool _ _); simpl; tauto);
        split; try tauto; intros [? ?]; discriminate. }
    assert (Hma : notna a = true -> fle a (fmax2 a y) = true).
    { intros Ha. unfold fmax2.
      destruct (notna y) eqn:Hy.
      - destruct (fle a y) eqn:Hle.
        + destruct a, y; try discriminate; simpl in *; try exact Hle;
            try reflexivity.
        + destruct a, y; try discriminate; simpl in *;
            try reflexivity; try (apply Qle_bool_iff, Qle_refl).
      - destruct y; try discriminate Hy.
        destruct a; try discriminate Ha; now apply fle_refl. }
    assert (Hmy : notna y = true -> fle y (fmax2 a y) = true).
    { intros Hy. unfold fmax2.
      destruct (notna a) eqn:Ha.
      - destruct (fle a y) eqn:Hle.
        + destruct a, y; try discriminate; simpl in *;
            try reflexivity; try (apply Qle_bool_iff, Qle_refl).
        + pose proof (fle_total a y Ha Hy Hle) as Hya.
          destruct a, y; try discriminate; simpl in *; try exact Hya;
            try reflexivity.
      - destruct a; try discriminate Ha. now apply fle_refl. }
    split; [|split].
    + rewrite Hna, Hmn. split.
      * intros [[Ha Hy] Hl]. split; [exact Ha|].
        intros x Hx. apply elem_of_cons in Hx as [->|Hx]; auto.
      * intros [Ha Hl]. split; [split|].
        -- exact Ha.
        -- apply Hl, list_elem_of_here.
        -- intros x Hx. apply Hl. now apply list_elem_of_further.
    + destruct Hin as [Hin|Hin].
      * rewrite Hin. destruct Hm as [->| ->];
          [now left | right; apply list_elem_of_here].
      * right. now apply list_elem_of_further.
    + intros x Hx Hn.
      assert (Hcase : x = a \/ x = y \/ x ∈ l).
      { destruct Hx as [->|Hx]; [now left|].
        apply elem_of_cons in Hx as [->|Hx]; tauto. }
      destruct Hcase as [->|[->|Hx']].
      * apply (fle_trans _ (fmax2 a y)); [now apply Hma|].
        apply Hub; [now left|]. pose proof (Hma Hn) as H.
        now apply fle_notna in H.
      * apply (fle_trans _ (fmax2 a y)); [now apply Hmy|].
        apply Hub; [now left|]. pose proof (Hmy Hn) as H.
        now apply fle_notna in H.
      * apply Hub; [now right | exact Hn].
Qed.

Lemma series_max_spec (l : list float64) :
  (notna (series_max l) = false <-> forall x, x ∈ l -> notna x = false)
  /\ (notna (series_max l) = true -> series_max l ∈ l)
  /\ (forall x, x ∈ l -> notna x = true -> fle x (series_max l) = true).
Proof.
  unfold series_max. destruct (fold_fmax2 l NaN) as (Hna & Hin & Hub).
  split; [|split].
  - rewrite Hna. simpl. tauto.
  - intros Hn. destruct Hin as [Hin|Hin]; [|exact Hin].
    rewrite Hin in Hn. discriminate Hn.
  - intros x Hx Hn. apply Hub; [now right | exact Hn].
Qed.

(** X7: [Series.max()] skips [NaN]: the maximum is [NaN] exactly when
    every cell is [NaN]; otherwise it is one of the cells, and every cell
    that is not [NaN] is at most the maximum. *)
Theorem series_max_greatest (l : list float64) :
  (notna (series_max l) = false <-> forall x, x ∈ l -> notna x = false)
  /\ (notna (series_max l) = true -> series_max l ∈ l)
  /\ (forall x, x ∈ l -> notna x = true -> fle x (series_max l) = true).
Proof. apply series_max_spec. Qed.

(** ** Clipping *)

Ltac q_bool :=
  repeat match goal with
         | H : Qle_bool _ _ = true |- _ => apply Qle_bool_iff in H
         | H : Qle_bool ?a ?b = false |- _ =>
             assert (~ (a <= b)%Q)
               by (let Hc := fresh in
                   intros Hc; apply Qle_bool_iff in Hc; congruence);
             clear H
         | |- Qle_bool _ _ = true => apply Qle_bool_iff
         end.

(** X8: the clip of line 133 keeps the order of the densities and is
    idempotent: a second clip changes nothing. *)
Theorem clip_upper_monotone (u : Q) (x y : float64) :
  fle x y = true ->
  fle (clip_upper u x) (clip_upper u y) = true
  /\ clip_upper u (clip_upper u x) = clip_upper u x.
Proof.
  intros Hle. split.
  - destruct x as [a| | |], y as [b| | |]; simpl in *;
      try discriminate Hle; try reflexivity;
      repeat match goal with
             | |- context [Qle_bool ?p u] =>
                 let E := fresh "E" in destruct (Qle_bool p u) eqn:E; simpl
             end;
      try reflexivity; q_bool; lra.
  - destruct x as [a| | |]; simpl; try reflexivity;
      repeat match goal with
             | |- context [Qle_bool ?p u] =>
                 let E := fresh "E" in
                 destruct (Qle_bool p u) eqn:E; simpl; try rewrite E
             end;
      try reflexivity; exfalso; q_bool; lra.
Qed.

Lemma clip_upper_monotone_example :
  fle (clip_upper 14000 (Fin 20000)) (clip_upper 14000 PInf) = true
  /\ clip_upper 14000 (clip_upper 14000 (Fin 20000))
     = clip_upper 14000 (Fin 20000).
Proof. apply clip_upper_monotone. reflexivity. Defined.

(** ** The bins and the densities *)

(** Line 141 on a positive multiple of 1000: the number of edges. *)
Lemma bins_count (j : Z) :
  1 <= j ->
  bins (j * 1000)
  = Ok (map (fun i : nat => Z.of_nat i * (j * 1000 / 10))
            (seq 0 (Z.to_nat (11 + 999 / (j * 1000 / 10))))).
Proof.
  intros Hj. unfold bins, py_range.
  assert (Hw : j * 1000 / 10 = j * 100).
  { replace (j * 1000) with (j * 100 * 10) by lia. now apply Z.div_mul. }
  rewrite Hw.
  destruct (j * 100 =? 0) eqn:H0; [lia|].
  destruct (0 <? j * 100) eqn:Hpos; [|lia].
  replace (j * 1000 + 1000 - 0 + j * 100 - 1) with (11 * (j * 100) + 999)
    by lia.
  rewrite Z.div_add_l by lia.
  assert (0 <= 999 / (j * 100)) by (apply Z.div_pos; lia).
  rewrite Z.max_r by lia. reflexivity.
Qed.

(** X9: on a non-negative maximum the bin edges are the multiples of a
    tenth of the rounded maximum [M], from 0 on, and there are
    [11 + 999 div (M / 10)] of them: 20 for [M = 1000], 15 for
    [M = 2000], 11 from [M = 10000] on. *)
Theorem classify_edge_count (q : Q) :
  (0 <= q)%Q ->
  exists (M : Z) (edges : list Z),
    classify (Fin q) = Ok (M, edges)
    /\ edges = map (fun i : nat => Z.of_nat i * (M / 10))
                   (seq 0 (length edges))
    /\ Z.of_nat (length edges) = 11 + 999 / (M / 10).
Proof.
  intros Hq.
  assert (Hj : 1 <= Qfloor (q / 1000) + 1).
  { assert (0 <= Qfloor (q / 1000)); [|lia].
    change 0 with (Qfloor 0). apply Qfloor_resp_le.
    apply Qle_shift_div_l; [reflexivity|]. now rewrite Qmult_0_l. }
  set (j := Qfloor (q / 1000) + 1) in *.
  assert (Hw : j * 1000 / 10 = j * 100).
  { replace (j * 1000) with (j * 100 * 10) by lia. now apply Z.div_mul. }
  assert (0 <= 999 / (j * 1000 / 10)) by (rewrite Hw; apply Z.div_pos; lia).
  eexists (j * 1000), _. split; [|split].
  - unfold classify. rewrite (round_max_nonneg q Hq). fold j.
    cbn [mbind result_bind]. rewrite (bins_count j Hj). reflexivity.
  - now rewrite length_map, length_seq.
  - rewrite length_map, length_seq. lia.
Qed.

Lemma classify_edge_count_at_2500 :
  exists edges : list Z,
    classify (Fin 2500) = Ok (3000, edges) /\ length edges = 14%nat.
Proof.
  assert (H : (0 <= 2500)%Q) by (vm_compute; discriminate).
  destruct (classify_edge_count 2500 H) as (M & edges & Hc & _ & Hn).
  assert (HM : M = 3000).
  { vm_compute in Hc. now injection Hc as <- _. }
  subst M. exists edges. split; [exact Hc|].
  change (999 / (3000 / 10)) with 3 in Hn. lia.
Defined.

Section DensityLayer.
Variable rnd : Q -> Q.
Hypothesis rnd_monotone : forall x y : Q, (x <= y)%Q -> (rnd x <= rnd y)%Q.
Hypothesis rnd_zero : (rnd 0 == 0)%Q.
Variable area_3857 : Geometry -> float64.

(** The density of a retained unit is a number between 0 and 14000. *)
Lemma density_in_range (pop : list PopRow) (shp : list ShapeRow)
    (rows : list GeoUnit) (u : GeoUnit) :
  (forall s, s ∈ shp -> nonneg_real (area_3857 (shp_geometry s)) = true) ->
  merged rnd area_3857 (Some pop) (Some shp) = Some rows ->
  u ∈ rows ->
  exists d, pop_density u = Fin d /\ (0 <= d)%Q /\ (d <= 14000)%Q.
Proof.
  intros Harea Hm Hu.
  apply (elem_of_merged rnd area_3857 pop shp rows u Hm) in Hu
    as (r & Hr & Hp & ->).
  destruct (merge_left_geometry shp pop r Hr) as (s & Hs & Hg).
  specialize (Harea s Hs). rewrite <- Hg in Harea.
  apply andb_prop in Hp as [Hna Hgt].
  unfold with_density; simpl.
  destruct (area_3857 (j_geometry r)) as [A| | |]; try discriminate.
  simpl in Harea. apply Qle_bool_iff in Harea.
  rewrite area_km2_finite.
  assert (Hz : (0 <= rnd (A / 1000000))%Q).
  { apply (rnd_nonneg rnd rnd_monotone rnd_zero).
    apply Qle_shift_div_l; [reflexivity|]. now rewrite Qmult_0_l. }
  destruct (density_of_positive rnd rnd_monotone rnd_zero _ _ Hna Hgt Hz)
    as [-> | (d & -> & Hd)]; simpl.
  - exists 14000%Q. split; [reflexivity|]. split; lra.
  - destruct (Qle_bool d 14000) eqn:Hle.
    + exists d. q_bool. now repeat split.
    + exists 14000%Q. split; [reflexivity|]. split; lra.
Qed.

Lemma rounded_max_of_layer (pop : list PopRow)
    (shp : list ShapeRow) (rows : list GeoUnit) :
  (forall s, s ∈ shp -> nonneg_real (area_3857 (shp_geometry s)) = true) ->
  merged rnd area_3857 (Some pop) (Some shp) = Some rows ->
  rows <> [] ->
  exists (M : Z) (edges : list Z),
    max_pop_density (Some rows) = Ok M
    /\ bins M = Ok edges
    /\ 1000 <= M <= 15000
    /\ edges !! 10%nat = Some M
    /\ (forall u, u ∈ rows ->
          fle (Fin 0) (pop_density u) = true
          /\ flt (pop_density u) (Fin (inject_Z M)) = true).
Proof.
  intros Harea Hm Hne.
  pose proof (fun u => density_in_range pop shp rows u Harea Hm) as Hrange.
  destruct (series_max_spec (map pop_density rows)) as (Hnan & Hin & Hub).
  assert (Hnotna : notna (series_max (map pop_density rows)) = true).
  { destruct (notna (series_max (map pop_density rows))) eqn:E; [reflexivity|].
    destruct rows as [|u0 rest]; [contradiction|].
    destruct (Hrange u0 (list_elem_of_here _ _)) as (d & Hd & _).
    assert (Hx : notna (pop_density u0) = false).
    { apply (proj1 Hnan eq_refl). simpl. apply list_elem_of_here. }
    rewrite Hd in Hx. discriminate Hx. }
  specialize (Hin Hnotna).
  apply list_elem_of_In, in_map_iff in Hin as (um & Hum & Hurows).
  apply list_elem_of_In in Hurows.
  destruct (Hrange um Hurows) as (q & Hq & Hq0 & Hq14).
  rewrite Hq in Hum.
  set (j := Qfloor (q / 1000) + 1).
  assert (Hj : 1 <= j <= 15).
  { unfold j.
    assert (0 <= Qfloor (q / 1000)).
    { change 0 with (Qfloor 0). apply Qfloor_resp_le.
      apply Qle_shift_div_l; [reflexivity|]. now rewrite Qmult_0_l. }
    assert (Qfloor (q / 1000) <= 14); [|lia].
    change 14 with (Qfloor 14). apply Qfloor_resp_le.
    apply Qle_shift_div_r; [reflexivity|]. lra. }
  destruct (bins_of_thousands j (proj1 Hj)) as (n & Hbins & Hn & _).
  exists (j * 1000), (map (fun i : nat => 0 + Z.of_nat i * (j * 100)) (seq 0 n)).
  split; [|split; [|split; [|split]]].
  - unfold max_pop_density. rewrite <- Hum. apply (round_max_nonneg q Hq0).
  - exact Hbins.
  - lia.
  - rewrite list_lookup_fmap, lookup_seq_lt by lia. simpl. f_equal. lia.
  - intros u Hu. destruct (Hrange u Hu) as (d & Hd & Hd0 & Hd14).
    rewrite Hd. unfold flt. simpl.
    assert (Hdq : (d <= q)%Q).
    { assert (Hle : fle (pop_density u) (series_max (map pop_density rows))
                    = true).
      { apply Hub; [|rewrite Hd; reflexivity].
        apply list_elem_of_In, in_map. now apply list_elem_of_In. }
      rewrite Hd, <- Hum in Hle. simpl in Hle. now apply Qle_bool_iff. }
    destruct (round_max_bounds q) as [_ Hlt]. fold j in Hlt.
    split; [now apply Qle_bool_iff|].
    apply andb_true_intro. split.
    + apply Qle_bool_iff. lra.
    + apply negb_true_iff. destruct (Qle_bool (inject_Z (j * 1000)) d) eqn:E;
        [|reflexivity]. q_bool. lra.
Qed.
(** X10: when both datasets are loaded, at least one unit is retained
    and the areas are non-negative reals, line 140 gives a rounded maximum
    [M] between 1000 and 15000, every retained density lies in [[0, M)],
    and [M] is the eleventh bin edge: each unit falls into one of the
    first ten bins. *)
Theorem densities_below_rounded_max (pop : list PopRow)
    (shp : list ShapeRow) (rows : list GeoUnit) :
  (forall s, s ∈ shp -> nonneg_real (area_3857 (shp_geometry s)) = true) ->
  merged rnd area_3857 (Some pop) (Some shp) = Some rows ->
  rows <> [] ->
  exists (M : Z) (edges : list Z),
    max_pop_density (Some rows) = Ok M
    /\ bins M = Ok edges
    /\ 1000 <= M <= 15000
    /\ edges !! 10%nat = Some M
    /\ (forall u, u ∈ rows ->
          fle (Fin 0) (pop_density u) = true
          /\ flt (pop_density u) (Fin (inject_Z M)) = true).
Proof. apply rounded_max_of_layer. Qed.

End DensityLayer.

Lemma densities_below_rounded_max_square :
  exists (M : Z) (edges : list Z),
    max_pop_density
      (Some (map (with_density exact area_by_rings)
                 (List.filter has_population (merge_left shp_square pop_100))))
    = Ok M
    /\ bins M = Ok edges
    /\ 1000 <= M <= 15000
    /\ edges !! 10%nat = Some M
    /\ (forall u,
          u ∈ map (with_density exact area_by_rings)
                  (List.filter has_population (merge_left shp_square pop_100)) ->
          fle (Fin 0) (pop_density u) = true
          /\ flt (pop_density u) (Fin (inject_Z M)) = true).
Proof.
  apply (densities_below_rounded_max exact exact_monotone exact_zero
           area_by_rings pop_100 shp_square).
  - intros s Hs. apply list_elem_of_singleton in Hs. subst s. reflexivity.
  - reflexivity.
  - discriminate.
Defined.

(** ** Paths and their points *)

(** X11: the coordinates of a path are the points of [shapes.txt] with
    that path id, each once, in ascending order of [shape_pt_sequence]. *)
Theorem shape_coords_sorted (shapes : list Shapes.row) (sid : Key) :
  exists pts : list Shapes.row,
    shape_coords shapes sid
    = map (fun p => (Shapes.shape_pt_lat p, Shapes.shape_pt_lon p)) pts
    /\ pts ≡ₚ List.filter (fun p => bool_decide (Shapes.shape_id p = sid)) shapes
    /\ StronglySorted
         (fun a b => Shapes.shape_pt_sequence a <= Shapes.shape_pt_sequence b)
         pts
    /\ (forall p, p ∈ pts -> p ∈ shapes /\ Shapes.shape_id p = sid).
Proof.
  eexists. split; [reflexivity|].
  destruct (sort_values_sorted
              (List.filter (fun p => bool_decide (Shapes.shape_id p = sid))
                           shapes))
    as [Hp Hs].
  split; [exact Hp|]. split; [exact Hs|].
  intros p Hin. rewrite Hp in Hin.
  apply list_elem_of_In, filter_In in Hin as [Hin Hid].
  split; [now apply list_elem_of_In | now apply bool_decide_eq_true in Hid].
Qed.

(** ** Trips and route names *)

Lemma trip_with_routes_rows (routes : list Routes.row) (t : Trips.row)
    (row : TripRoutes.row) :
  row ∈ trip_with_routes routes t ->
  TripRoutes.route_id row = Trips.route_id t
  /\ TripRoutes.shape_id row = Trips.shape_id t
  /\ ((exists r, r ∈ routes
                 /\ Routes.route_id r = Trips.route_id t
                 /\ TripRoutes.route_short_name row
                    = Routes.route_short_name r)
      \/ ((forall r, r ∈ routes -> Routes.route_id r <> Trips.route_id t)
          /\ TripRoutes.route_short_name row = CNaN)).
Proof.
  unfold trip_with_routes. intros Hrow. apply list_elem_of_In in Hrow.
  destruct (List.filter _ routes) as [|r0 rs] eqn:Hf.
  - destruct Hrow as [<-|[]]. simpl. repeat split. right. split; [|reflexivity].
    intros r Hr Hid.
    assert (Hin : In r (List.filter
                          (fun r => bool_decide (Trips.route_id t
                                                 = Routes.route_id r)) routes)).
    { apply filter_In. split; [now apply list_elem_of_In|].
      now apply bool_decide_eq_true. }
    rewrite Hf in Hin. destruct Hin.
  - apply in_map_iff in Hrow as (r & <- & Hin). simpl. repeat split.
    left. rewrite <- Hf in Hin. apply filter_In in Hin as [Hin Hid].
    apply bool_decide_eq_true in Hid. exists r.
    split; [now apply list_elem_of_In|]. now split.
Qed.

(** X12: when the merge does not raise, every row of [trip_routes]
    carries the route id and path id of a trip, together with the name of
    a route with that route id, or a missing name when no route has it; the
    names of an integer column are floats when some trip has no route. *)
Theorem merge_trip_routes_rows (trips : list Trips.row)
    (routes : list Routes.row) (trip_routes : list TripRoutes.row)
    (row : TripRoutes.row) :
  merge_trip_routes trips routes = Ok trip_routes ->
  row ∈ trip_routes ->
  exists t,
    t ∈ trips
    /\ TripRoutes.route_id row = Trips.route_id t
    /\ TripRoutes.shape_id row = Trips.shape_id t
    /\ ((exists r, r ∈ routes
                   /\ Routes.route_id r = Trips.route_id t
                   /\ TripRoutes.route_short_name row
                      = if names_upcast trips routes
                        then to_float64 (Routes.route_short_name r)
                        else Routes.route_short_name r)
        \/ ((forall r, r ∈ routes -> Routes.route_id r <> Trips.route_id t)
            /\ TripRoutes.route_short_name row = CNaN)).
Proof.
  unfold merge_trip_routes.
  destruct (check_merge_keys _ _); [discriminate|].
  intros [= <-] H.
  destruct (names_upcast trips routes).
  - apply list_elem_of_In, in_map_iff in H as (row0 & <- & H).
    apply in_flat_map in H as (t & Ht & Hrow).
    exists t. split; [now apply list_elem_of_In|].
    apply list_elem_of_In, trip_with_routes_rows in Hrow
      as (Hrid & Hsid & Hname).
    split; [exact Hrid|]. split; [exact Hsid|].
    destruct Hname as [(r & Hr & Hid & Hn)|[Hno Hn]].
    + left. exists r. split; [exact Hr|]. split; [exact Hid|].
      simpl. now rewrite Hn.
    + right. split; [exact Hno|]. simpl. now rewrite Hn.
  - apply list_elem_of_In, in_flat_map in H as (t & Ht & Hrow).
    exists t. split; [now apply list_elem_of_In|].
    now apply list_elem_of_In, trip_with_routes_rows in Hrow.
Qed.

Lemma merge_trip_routes_rows_example :
  exists t,
    t ∈ small_trips
    /\ KStr "r1" = Trips.route_id t
    /\ KStr "s1" = Trips.shape_id t
    /\ ((exists r, r ∈ small_routes
                   /\ Routes.route_id r = Trips.route_id t
                   /\ CFloat 22
                      = if names_upcast small_trips small_routes
                        then to_float64 (Routes.route_short_name r)
                        else Routes.route_short_name r)
        \/ ((forall r, r ∈ small_routes ->
                       Routes.route_id r <> Trips.route_id t)
            /\ CFloat 22 = CNaN)).
Proof.
  apply (merge_trip_routes_rows small_trips small_routes _
           {| TripRoutes.route_id := KStr "r1";
              TripRoutes.shape_id := KStr "s1";
              TripRoutes.route_short_name := CFloat 22 |} eq_refl).
  apply list_elem_of_here.
Defined.

(** ** The layers of a mode *)

Section PlotProperties.
Variable validate_locations : list LatLon -> option exn.
Variable validate_location : LatLon -> option exn.
Variable fs : FileSystem.
Variable show_stops : bool.

(** X13: [plot_gtfs] is all or nothing.  Whatever the folder holds, it
    either appends to the map the route layer of the mode (followed by the
    stop layer exactly when stops are shown) and shows no error, or leaves
    the map as it was and shows one error naming the mode. *)
Theorem plot_gtfs_all_or_nothing (folder color label : string) (m : Map)
    (errors : list string) :
  (exists lines markers,
     plot_gtfs validate_locations validate_location fs show_stops
               folder color label (m, errors)
     = (m ++ FeatureGroup (label +:+ " Routes") true lines
          :: (if show_stops
              then [FeatureGroup (label +:+ " Stops") true markers]
              else []),
        errors))
  \/ (exists e,
        plot_gtfs validate_locations validate_location fs show_stops
                  folder color label (m, errors)
        = (m, errors ++ [failure_message label e])).
Proof.
  destruct (plot_gtfs_appends validate_locations validate_location fs
              show_stops folder color label)
    as (added & new & Hplot & [[-> [e ->]] | [-> (lines & markers & ->)]]).
  - right. exists e. rewrite Hplot. now rewrite app_nil_r.
  - left. exists lines, markers. rewrite Hplot. now rewrite app_nil_r.
Qed.

Lemma plot_modes_appends (modes : list Mode) :
  exists added new,
    (forall m errors,
       plot_modes validate_locations validate_location fs show_stops
                  modes (m, errors)
       = (m ++ added, errors ++ new))
    /\ (length new <= length modes)%nat
    /\ length added
       = ((if show_stops then 2 else 1) * (length modes - length new))%nat.
Proof.
  induction modes as [|mode rest IH].
  - exists [], []. split; [|split; [reflexivity | destruct show_stops; reflexivity]].
    intros m errors. simpl. now rewrite !app_nil_r.
  - destruct (plot_gtfs_appends validate_locations validate_location fs
                show_stops (folder (GTFS_FEEDS mode))
                (color (GTFS_FEEDS mode)) (mode_label mode))
      as (a1 & n1 & H1 & Hcase).
    destruct IH as (a2 & n2 & H2 & Hlen & Hadded).
    exists (a1 ++ a2), (n1 ++ n2). split; [|split].
    + intros m errors. unfold plot_modes in *. cbn [foldl].
      rewrite H1, H2. now rewrite <- !app_assoc.
    + destruct Hcase as [[-> [e ->]] | [-> _]]; simpl; lia.
    + rewrite !length_app, Hadded.
      destruct Hcase as [[-> [e ->]] | [-> (lines & markers & ->)]];
        destruct show_stops; simpl; lia.
Qed.

(** X14: the loop over the selected modes only appends: the layers
    already on the map stay in front, unchanged, the errors already shown
    stay, and what is appended does not depend on either.  Every mode
    yields either its layers (one, or two when stops are shown) or one
    error. *)
Theorem plot_modes_only_appends (modes : list Mode) :
  exists added new,
    (forall m errors,
       plot_modes validate_locations validate_location fs show_stops
                  modes (m, errors)
       = (m ++ added, errors ++ new))
    /\ (length new <= length modes)%nat
    /\ length added
       = ((if show_stops then 2 else 1) * (length modes - length new))%nat.
Proof. apply plot_modes_appends. Qed.

(** X15: if folium refuses the coordinates of one path that the trips of
    a mode refer to, the whole mode fails: the map is left as it was, no
    other path of the mode is drawn, and one error naming the mode is
    shown. *)
Theorem refused_path_fails_mode (folder color label : string) (m : Map)
    (errors : list string)
    (shapes : list Shapes.row) (trips : list Trips.row)
    (routes : list Routes.row) (stops : list Stops.row)
    (t : Trips.row) (e0 : exn) :
  shapes_txt (fs folder) = Ok shapes ->
  trips_txt (fs folder) = Ok trips ->
  routes_txt (fs folder) = Ok routes ->
  stops_txt (fs folder) = Ok stops ->
  t ∈ trips ->
  validate_locations (shape_coords shapes (Trips.shape_id t)) = Some e0 ->
  exists e,
    plot_gtfs validate_locations validate_location fs show_stops
              folder color label (m, errors)
    = (m, errors ++ [failure_message label e]).
Proof. apply plot_gtfs_refused. Qed.

(** X16: when the four tables of a mode are read, the merge of trips and
    routes does not raise and folium accepts the features, every line of
    the route layer is the line of a row of [trip_routes] that is the
    first row of its path id: the tooltip of a path carries the route name
    of the first trip that refers to it, as [str] prints the cell of
    [trip_routes] (an integer name of a column that the merge has made
    float prints with ".0", a missing name prints as "nan"). *)
Theorem first_route_name_wins (folder color label : string) (m : Map)
    (errors : list string)
    (shapes : list Shapes.row) (trips : list Trips.row)
    (routes : list Routes.row) (stops : list Stops.row)
    (trip_routes : list TripRoutes.row) :
  shapes_txt (fs folder) = Ok shapes ->
  trips_txt (fs folder) = Ok trips ->
  routes_txt (fs folder) = Ok routes ->
  stops_txt (fs folder) = Ok stops ->
  merge_trip_routes trips routes = Ok trip_routes ->
  accepted validate_locations validate_location show_stops shapes trips stops ->
  exists lines rest,
    plot_gtfs validate_locations validate_location fs show_stops
              folder color label (m, errors)
    = (m ++ FeatureGroup (label +:+ " Routes") true lines :: rest, errors)
    /\ forall line, line ∈ lines ->
         exists pre row post,
           trip_routes = pre ++ row :: post
           /\ (forall r, r ∈ pre ->
                 TripRoutes.shape_id r <> TripRoutes.shape_id row)
           /\ is_route_line shapes color label row line.
Proof.
  intros Hs Ht Hr Hp Hm Hacc. eexists _, _. split.
  - apply (plot_gtfs_ok _ _ _ _ folder color label m errors _ _ _ _ _
             Hs Ht Hr Hp Hm Hacc).
  - intros line Hline.
    apply list_elem_of_In, in_map_iff in Hline as (row & <- & Hrow).
    apply list_elem_of_In, first_rows_first in Hrow
      as (pre & post & Heq & Hpre).
    exists pre, row, post. split; [exact Heq|]. split; [exact Hpre|].
    apply route_line_is_route_line.
Qed.

(** X17: when the four tables of a mode are read, the merge of trips and
    routes does not raise, folium accepts the features and stops are shown,
    the stop layer holds one marker per row of [stops.txt], in the order
    of the rows, at the row's latitude and longitude. *)
Theorem one_marker_per_stop (folder color label : string) (m : Map)
    (errors : list string)
    (shapes : list Shapes.row) (trips : list Trips.row)
    (routes : list Routes.row) (stops : list Stops.row)
    (trip_routes : list TripRoutes.row) :
  shapes_txt (fs folder) = Ok shapes ->
  trips_txt (fs folder) = Ok trips ->
  routes_txt (fs folder) = Ok routes ->
  stops_txt (fs folder) = Ok stops ->
  merge_trip_routes trips routes = Ok trip_routes ->
  accepted validate_locations validate_location show_stops shapes trips stops ->
  show_stops = true ->
  exists lines markers,
    plot_gtfs validate_locations validate_location fs show_stops
              folder color label (m, errors)
    = (m ++ [FeatureGroup (label +:+ " Routes") true lines;
             FeatureGroup (label +:+ " Stops") true markers], errors)
    /\ map locations_of markers
       = map (fun s => [(Stops.stop_lat s, Stops.stop_lon s)]) stops
    /\ Forall (fun f => is_CircleMarker f = true) markers.
Proof.
  intros Hs Ht Hr Hp Hm Hacc Hshow.
  eexists _, (map (stop_marker color label) stops).
  split; [|split].
  - rewrite (plot_gtfs_ok _ _ _ _ folder color label m errors _ _ _ _ _
               Hs Ht Hr Hp Hm Hacc).
    rewrite Hshow. reflexivity.
  - rewrite map_map. reflexivity.
  - apply Forall_forall. intros f Hf.
    apply list_elem_of_In, in_map_iff in Hf as (s & <- & _). reflexivity.
Qed.
End PlotProperties.

Lemma refused_path_fails_mode_small_feed :
  exists e,
    plot_gtfs refuse_empty accept_location light_rail_only true
              "light_rail" "purple" "Light Rail" ([], [])
    = ([], [] ++ [failure_message "Light Rail" e]).
Proof.
  apply (refused_path_fails_mode refuse_empty accept_location light_rail_only
           true "light_rail" "purple" "Light Rail" [] [] _ _ _ _
           {| Trips.route_id := KStr "r2"; Trips.shape_id := KStr "s2" |}
           (ValueError "Locations is empty.")
           eq_refl eq_refl eq_refl eq_refl).
  - apply list_elem_of_further, list_elem_of_further, list_elem_of_here.
  - reflexivity.
Defined.

Lemma first_route_name_wins_complete_feed :
  exists lines rest,
    plot_gtfs refuse_empty accept_location light_rail_complete true
              "light_rail" "purple" "Light Rail" ([], [])
    = ([] ++ FeatureGroup ("Light Rail" +:+ " Routes") true lines :: rest, [])
    /\ forall line, line ∈ lines ->
         exists pre row post,
           complete_trip_routes = pre ++ row :: post
           /\ (forall r, r ∈ pre ->
                 TripRoutes.shape_id r <> TripRoutes.shape_id row)
           /\ is_route_line complete_shapes "purple" "Light Rail" row line.
Proof.
  apply (first_route_name_wins refuse_empty accept_location
           light_rail_complete true "light_rail" "purple" "Light Rail" [] []
           complete_shapes complete_trips complete_routes complete_stops
           complete_trip_routes eq_refl eq_refl eq_refl eq_refl eq_refl
           (accepted_complete_feed true)).
Defined.

Lemma one_marker_per_stop_complete_feed :
  exists lines markers,
    plot_gtfs refuse_empty accept_location light_rail_complete true
              "light_rail" "purple" "Light Rail" ([], [])
    = ([] ++ [FeatureGroup ("Light Rail" +:+ " Routes") true lines;
              FeatureGroup ("Light Rail" +:+ " Stops") true markers], [])
    /\ map locations_of markers
       = map (fun s => [(Stops.stop_lat s, Stops.stop_lon s)]) complete_stops
    /\ Forall (fun f => is_CircleMarker f = true) markers.
Proof.
  apply (one_marker_per_stop refuse_empty accept_location
           light_rail_complete true "light_rail" "purple" "Light Rail" [] []
           complete_shapes complete_trips complete_routes complete_stops
           complete_trip_routes eq_refl eq_refl eq_refl eq_refl eq_refl
           (accepted_complete_feed true) eq_refl).
Defined.

(** ** The script as a whole *)

(** X18: when both datasets are loaded, at least one unit is retained and
    the areas are non-negative reals, the script does not raise: it renders
    the density layer first (when the population layer is shown), then the
    layers of the selected modes in the order of the selection, then the
    layer control, and shows the errors of the modes that failed. *)
Theorem script_renders (rnd : Q -> Q)
    (rnd_monotone : forall x y : Q, (x <= y)%Q -> (rnd x <= rnd y)%Q)
    (rnd_zero : (rnd 0 == 0)%Q)
    (area_3857 : Geometry -> float64)
    (validate_locations : list LatLon -> option exn)
    (validate_location : LatLon -> option exn)
    (pop : list PopRow) (shp : list ShapeRow) (rows : list GeoUnit)
    (fs : FileSystem) (selected_modes : list Mode)
    (show_stops show_population : bool) :
  (forall s, s ∈ shp -> nonneg_real (area_3857 (shp_geometry s)) = true) ->
  merged rnd area_3857 (Some pop) (Some shp) = Some rows ->
  rows <> [] ->
  exists (edges : list Z) (layers : list Layer) (errors : list string),
    script rnd area_3857 validate_locations validate_location
           (Some pop) (Some shp) fs selected_modes show_stops show_population
    = Ok ((if show_population
           then [Choropleth rows "Population Density" edges
                   "Population Density (people/km²)"]
           else [])
          ++ layers ++ [LayerControl false],
          errors)
    /\ plot_modes validate_locations validate_location fs show_stops
                  selected_modes ([], [])
       = (layers, errors).
Proof.
  intros Harea Hm Hne.
  destruct (rounded_max_of_layer rnd rnd_monotone rnd_zero area_3857
              pop shp rows Harea Hm Hne) as (M & edges & HM & Hbins & _).
  destruct (plot_modes_appends validate_locations validate_location fs
              show_stops selected_modes) as (layers & errors & Hplot & _).
  exists edges, layers, errors. split.
  - unfold script. rewrite Hm, HM. cbn [mbind result_bind].
    rewrite Hbins. cbn [mbind result_bind].
    destruct show_population; unfold add_to; rewrite Hplot; simpl;
      now rewrite <- ?app_assoc.
  - now rewrite Hplot.
Qed.

Lemma script_renders_square :
  exists (edges : list Z) (layers : list Layer) (errors : list string),
    script exact area_by_rings accept_locations accept_location
           (Some pop_100) (Some shp_square) light_rail_only
           [LocalBus; LightRail] false true
    = Ok ((if true
           then [Choropleth
                   (map (with_density exact area_by_rings)
                        (List.filter has_population
                                     (merge_left shp_square pop_100)))
                   "Population Density" edges
                   "Population Density (people/km²)"]
           else [])
          ++ layers ++ [LayerControl false],
          errors)
    /\ plot_modes accept_locations accept_location light_rail_only false
                  [LocalBus; LightRail] ([], [])
       = (layers, errors).
Proof.
  apply (script_renders exact exact_monotone exact_zero area_by_rings
           accept_locations accept_location pop_100 shp_square).
  - intros s Hs. apply list_elem_of_singleton in Hs. subst s. reflexivity.
  - reflexivity.
  - discriminate.
Defined.

(** X19: when both datasets are loaded but no unit is retained (no
    polygon key matches a population row, or no matched population is
    positive), the maximum of the empty density column is [NaN] and line
    140 ends the script with a [ValueError]; no layer is rendered. *)
Theorem script_aborts_on_empty_layer (rnd : Q -> Q)
    (area_3857 : Geometry -> float64)
    (validate_locations : list LatLon -> option exn)
    (validate_location : LatLon -> option exn)
    (pop : list PopRow) (shp : list ShapeRow)
    (fs : FileSystem) (selected_modes : list Mode)
    (show_stops show_population : bool) :
  List.filter has_population (merge_left shp pop) = [] ->
  script rnd area_3857 validate_locations validate_location
         (Some pop) (Some shp) fs selected_modes show_stops show_population
  = Raise (ValueError "cannot convert float NaN to integer").
Proof. intros H. unfold script, merged. rewrite H. reflexivity. Qed.

Lemma script_aborts_on_empty_layer_unpadded_key :
  script exact area_by_rings accept_locations accept_location
         (Some [ {| pop_GEOID := "010010001001"; pop_population := Fin 100 |} ])
         (Some [ {| shp_GEOID := CInt 10010001001; shp_geometry := square |} ])
         light_rail_only [LightRail] true true
  = Raise (ValueError "cannot convert float NaN to integer").
Proof. apply script_aborts_on_empty_layer. reflexivity. Defined.

(** ** Refreshing the feeds *)

(** X20: after the refresh button, the folder of every feed holds the
    tables of its archive if its download succeeded and what it held
    before if the download failed; a download never touches the folder of
    another feed, nor any other folder. *)
Theorem refresh_all_folders (net : Network) (fs : FileSystem)
    (shown : list Message) :
  (forall mode,
     fst (refresh_all net (fs, shown)) (folder (GTFS_FEEDS mode))
     = match net (url (GTFS_FEEDS mode)) with
       | Ok z => z
       | Raise _ => fs (folder (GTFS_FEEDS mode))
       end)
  /\ (forall f, (forall mode, f <> folder (GTFS_FEEDS mode)) ->
        fst (refresh_all net (fs, shown)) f = fs f).
Proof.
  unfold refresh_all, all_modes. cbn [foldl]. unfold download_gtfs.
  cbn [GTFS_FEEDS url folder mode_label].
  split.
  - intros mode. destruct mode; cbn [GTFS_FEEDS url folder];
      destruct (net "https://feeds.mta.maryland.gov/gtfs/local-bus"),
        (net "https://feeds.mta.maryland.gov/gtfs/light-rail"),
        (net "https://feeds.mta.maryland.gov/gtfs/metro"),
        (net "https://feeds.mta.maryland.gov/gtfs/marc"),
        (net "https://feeds.mta.maryland.gov/gtfs/commuter-bus");
      reflexivity.
  - intros f Hf.
    assert (H1 : String.eqb f "bus" = false)
      by (apply String.eqb_neq, (Hf LocalBus)).
    assert (H2 : String.eqb f "light_rail" = false)
      by (apply String.eqb_neq, (Hf LightRail)).
    assert (H3 : String.eqb f "metro" = false)
      by (apply String.eqb_neq, (Hf MetroSubway)).
    assert (H4 : String.eqb f "marc_train" = false)
      by (apply String.eqb_neq, (Hf MARCTrain)).
    assert (H5 : String.eqb f "commuter_bus" = false)
      by (apply String.eqb_neq, (Hf CommuterBus)).
    destruct (net "https://feeds.mta.maryland.gov/gtfs/local-bus"),
      (net "https://feeds.mta.maryland.gov/gtfs/light-rail"),
      (net "https://feeds.mta.maryland.gov/gtfs/metro"),
      (net "https://feeds.mta.maryland.gov/gtfs/marc"),
      (net "https://feeds.mta.maryland.gov/gtfs/commuter-bus");
      cbn [fst]; rewrite ?H1, ?H2, ?H3, ?H4, ?H5; reflexivity.
Qed.
